(** * Business Sales Dashboard: the data pipeline of [dashboard.py]

    The script loads a table, makes sure a fixed list of columns exists,
    turns two columns into numbers, keeps the rows with positive volume and
    price, and derives KPIs and grouped sums from them.  The pandas calls the
    script makes are embedded here as functions over an explicit table type;
    every call that can raise in Python returns a [result]. *)

From Stdlib Require Import String Ascii List Bool Arith ZArith QArith Lia.
From Stdlib Require Import QArith.Qround Sorting.Sorted OrderedTypeEx.
Import ListNotations.

(** ** Numbers

    A numeric cell is a value of an int64 or a float64 column.  The finite
    values are kept as the rationals they denote, and are added and
    multiplied as rationals: pandas computes the same while the values are
    whole numbers below 2^53; beyond that an int64 column wraps and a
    float64 column rounds or overflows, which is not modelled.  The
    statements that name a sum or a product are therefore made for whole
    numbers in that range, the others speak of the cells a table holds.
    NaN and the two infinities, which [pd.to_numeric] can produce, are kept
    apart. *)

Module Num.

Local Open Scope Q_scope.

Inductive num : Type :=
| NaN
| NInf
| Fin (q : Q)
| PInf.

Definition zero : num := Fin 0.

Definition isnan (x : num) : bool :=
  match x with NaN => true | _ => false end.

Definition Qltb (a b : Q) : bool :=
  match a ?= b with Lt => true | _ => false end.

(** IEEE addition: NaN is absorbing, opposite infinities cancel to NaN. *)
Definition add (x y : num) : num :=
  match x, y with
  | NaN, _ | _, NaN => NaN
  | PInf, NInf | NInf, PInf => NaN
  | PInf, _ | _, PInf => PInf
  | NInf, _ | _, NInf => NInf
  | Fin a, Fin b => Fin (a + b)
  end.

Definition neg (x : num) : num :=
  match x with
  | NaN => NaN
  | NInf => PInf
  | PInf => NInf
  | Fin a => Fin (- a)
  end.

(** An infinity scaled by a finite factor: the sign of the factor decides,
    and a zero factor gives NaN. *)
Definition scale_inf (inf : num) (a : Q) : num :=
  match a ?= 0 with
  | Eq => NaN
  | Gt => inf
  | Lt => neg inf
  end.

Definition mul (x y : num) : num :=
  match x, y with
  | NaN, _ | _, NaN => NaN
  | Fin a, Fin b => Fin (a * b)
  | Fin a, inf => scale_inf inf a
  | inf, Fin b => scale_inf inf b
  | PInf, PInf | NInf, NInf => PInf
  | PInf, NInf | NInf, PInf => NInf
  end.

(** Division by a count, as used by [mean]; a finite value over a zero
    count is NaN for 0/0 and an infinity otherwise. *)
Definition divn (x : num) (n : nat) : num :=
  match x, n with
  | Fin a, O => scale_inf PInf a
  | Fin a, _ => Fin (a / inject_Z (Z.of_nat n))
  | other, _ => other
  end.

(** [x < y]; every comparison with NaN is false. *)
Definition ltb (x y : num) : bool :=
  match x, y with
  | NaN, _ | _, NaN => false
  | _, NInf => false
  | NInf, _ => true
  | PInf, _ => false
  | _, PInf => true
  | Fin a, Fin b => Qltb a b
  end.

(** [x <= y]; every comparison with NaN is false. *)
Definition leb (x y : num) : bool :=
  match x, y with
  | NaN, _ | _, NaN => false
  | NInf, _ => true
  | _, PInf => true
  | _, NInf => false
  | PInf, _ => false
  | Fin a, Fin b => negb (Qltb b a)
  end.

(** Three-way comparison of values that are not NaN (NaN is placed first
    only to make the function total; callers drop NaN before using it). *)
Definition compare (x y : num) : comparison :=
  match x, y with
  | NaN, NaN => Eq
  | NaN, _ => Lt
  | _, NaN => Gt
  | NInf, NInf => Eq
  | NInf, _ => Lt
  | _, NInf => Gt
  | PInf, PInf => Eq
  | PInf, _ => Gt
  | _, PInf => Lt
  | Fin a, Fin b => a ?= b
  end.

End Num.
Import Num.

Local Open Scope string_scope.
Local Open Scope list_scope.

(** ** Cells, rows and tables *)

(** A cell read from the file is a string or a number; a missing cell is the
    number NaN, as in pandas.  (A column of True/False is not told apart
    from a column of 1/0, which is how the script's arithmetic treats it.) *)
Inductive cell : Type :=
| CStr (s : string)
| CNum (x : num).

Definition isna (c : cell) : bool :=
  match c with
  | CNum x => isnan x
  | CStr _ => false
  end.

(** A record maps column names to cells, in column order. *)
Definition Row : Type := list (string * cell).

(** [row[c]], with NaN where the record has no such cell. *)
Fixpoint cell_at (r : Row) (c : string) : cell :=
  match r with
  | [] => CNum NaN
  | (k, v) :: r' => if String.eqb k c then v else cell_at r' c
  end.

(** [row[c] = v]: overwrite the cell in place, or append it. *)
Fixpoint row_set (r : Row) (c : string) (v : cell) : Row :=
  match r with
  | [] => [(c, v)]
  | (k, w) :: r' =>
      if String.eqb k c then (k, v) :: r' else (k, w) :: row_set r' c v
  end.

Definition Series : Type := list cell.

(** A table: the column index and the records in row order.  A table read
    from a file has one cell per column in every record; the operations
    below are defined on any records, a lacking cell reading as missing. *)
Record DataFrame : Type := mkDataFrame {
  columns : list string;
  rows : list Row
}.

(** [pd.DataFrame()] *)
Definition DataFrame_new : DataFrame := mkDataFrame [] [].

Definition has_column (df : DataFrame) (c : string) : bool :=
  existsb (String.eqb c) (columns df).

(** [df.empty]: one of the two axes has length zero. *)
Definition empty (df : DataFrame) : bool :=
  match columns df, rows df with
  | [], _ | _, [] => true
  | _, _ => false
  end.

(** ** Exceptions *)

(** [NotNumeric] stands for an arithmetic or sorting operation applied to a
    column that holds a str cell: pandas then works on the Python objects
    (concatenation, repetition, text order), which is outside this model.
    The script only applies these operations to columns it has coerced. *)
Inductive exn : Type :=
| KeyError (c : string)
| TypeError
| IndexError
| NotNumeric.

Inductive result (A : Type) : Type :=
| Ok (a : A)
| Raise (e : exn).
Arguments Ok {A} a.
Arguments Raise {A} e.

Definition bind {A B : Type} (m : result A) (k : A -> result B) : result B :=
  match m with
  | Ok a => k a
  | Raise e => Raise e
  end.

Notation "x <- m ;; k" := (bind m (fun x => k))
  (at level 61, m at next level, right associativity).

Fixpoint mapM {A B : Type} (f : A -> result B) (l : list A) : result (list B) :=
  match l with
  | [] => Ok []
  | a :: l' => b <- f a ;; bs <- mapM f l' ;; Ok (b :: bs)
  end.

(** ** Column access *)

(** [df[c]]: KeyError when the table has no such column. *)
Definition getitem (df : DataFrame) (c : string) : result Series :=
  if has_column df c
  then Ok (map (fun r => cell_at r c) (rows df))
  else Raise (KeyError c).

Fixpoint zip_set (rs : list Row) (c : string) (s : Series) : list Row :=
  match rs, s with
  | r :: rs', v :: s' => row_set r c v :: zip_set rs' c s'
  | _, _ => rs
  end.

(** [df[c] = s] for a series [s] over the index of [df]: the column is
    replaced where it stands, or added last. *)
Definition setitem (df : DataFrame) (c : string) (s : Series) : DataFrame :=
  mkDataFrame
    (if has_column df c then columns df else columns df ++ [c])
    (zip_set (rows df) c s).

(** [df[c] = v] for a scalar [v], broadcast over the rows. *)
Definition setitem_scalar (df : DataFrame) (c : string) (v : cell) : DataFrame :=
  setitem df c (repeat v (length (rows df))).

(** ** Loader (lines 13-16) *)

Definition load (csv : option DataFrame) : DataFrame :=
  match csv with
  | Some df => df
  | None => DataFrame_new
  end.

(** ** Schema normalizer (lines 21-30) *)

Definition expected_cols : list string :=
  ["Product ID"; "Product Position"; "Promotion"; "Product Category";
   "Seasonal"; "Sales Volume"; "brand"; "url"; "name"; "description";
   "price"; "currency"; "terms"; "section"; "season"; "material"; "origin"].

(** The body of the loop of lines 25-27. *)
Definition ensure_step (d : DataFrame) (c : string) : DataFrame :=
  if has_column d c then d else setitem_scalar d c (CStr "").

Definition ensure_columns (df : DataFrame) : DataFrame :=
  fold_left ensure_step expected_cols df.

Definition has_expected (d : DataFrame) : Prop :=
  forall c, In c expected_cols -> has_column d c = true.

Section Normalizer.

(** The parser pandas applies to a string cell: [Some x] when the text
    reads as a number (which may be NaN or an infinity), [None] when it
    does not. *)
Variable parse_float : string -> option num.

(** [pd.to_numeric(s, errors="coerce")] *)
Definition to_numeric_cell (c : cell) : cell :=
  match c with
  | CNum x => CNum x
  | CStr s =>
      match parse_float s with
      | Some x => CNum x
      | None => CNum NaN
      end
  end.

Definition to_numeric (s : Series) : Series := map to_numeric_cell s.

(** [s.fillna(v)] *)
Definition fillna_cell (v : cell) (c : cell) : cell :=
  if isna c then v else c.

Definition fillna (v : cell) (s : Series) : Series := map (fillna_cell v) s.

(** The right-hand side of lines 29 and 30. *)
Definition coerce (s : Series) : Series :=
  fillna (CNum zero) (to_numeric s).

(** What [coerce] does to one cell, and to that cell of a record. *)
Definition coerce_cell (c : cell) : cell :=
  fillna_cell (CNum zero) (to_numeric_cell c).

Definition coerce_row (c : string) (r : Row) : Row :=
  row_set r c (coerce_cell (cell_at r c)).

Definition coerce_column (df : DataFrame) (c : string) : result DataFrame :=
  s <- getitem df c ;;
  Ok (setitem df c (coerce s)).

Definition normalize (df : DataFrame) : result DataFrame :=
  let df := ensure_columns df in
  df <- coerce_column df "Sales Volume" ;;
  coerce_column df "price".

(** The table the normalizer builds once the columns are in place. *)
Definition normalized_of (e : DataFrame) : DataFrame :=
  mkDataFrame (columns e)
    (map (fun r => coerce_row "price" (coerce_row "Sales Volume" r)) (rows e)).

End Normalizer.

(** A cell that does not read as a number: text the parser rejects, or a
    missing cell. *)
Definition unparsable (parse_float : string -> option num) (c : cell) : Prop :=
  match c with
  | CStr s => parse_float s = None
  | CNum x => x = NaN
  end.

(** ** Filter / derive (lines 32-33) *)

(** [s > 0]: comparing a str cell with a number raises. *)
Definition gt_zero_cell (c : cell) : result bool :=
  match c with
  | CNum x => Ok (ltb zero x)
  | CStr _ => Raise TypeError
  end.

Definition gt_zero (s : Series) : result (list bool) := mapM gt_zero_cell s.

(** [m1 & m2] for two masks over the same index. *)
Fixpoint mask_and (m1 m2 : list bool) : list bool :=
  match m1, m2 with
  | a :: m1', b :: m2' => (a && b) :: mask_and m1' m2'
  | _, _ => []
  end.

Fixpoint select (rs : list Row) (m : list bool) : list Row :=
  match rs, m with
  | r :: rs', b :: m' => if b then r :: select rs' m' else select rs' m'
  | _, _ => []
  end.

(** [df[mask]]: a new table with the rows the mask keeps. *)
Definition getitem_mask (df : DataFrame) (m : list bool) : DataFrame :=
  mkDataFrame (columns df) (select (rows df) m).

Definition num_of_cell (c : cell) : result num :=
  match c with
  | CNum x => Ok x
  | CStr _ => Raise NotNumeric
  end.

Definition mul_cell (a b : cell) : result cell :=
  x <- num_of_cell a ;;
  y <- num_of_cell b ;;
  Ok (CNum (mul x y)).

(** [a * b] for two series over the same index. *)
Fixpoint series_mul (a b : Series) : result Series :=
  match a, b with
  | x :: a', y :: b' =>
      z <- mul_cell x y ;; zs <- series_mul a' b' ;; Ok (z :: zs)
  | _, _ => Ok []
  end.

(** [(df["Sales Volume"] > 0) & (df["price"] > 0)] *)
Definition positive_mask (df : DataFrame) : result (list bool) :=
  sv <- getitem df "Sales Volume" ;;
  m1 <- gt_zero sv ;;
  p <- getitem df "price" ;;
  m2 <- gt_zero p ;;
  Ok (mask_and m1 m2).

(** [df["Sales Volume"] * df["price"]] *)
Definition revenue (df : DataFrame) : result Series :=
  sv <- getitem df "Sales Volume" ;;
  p <- getitem df "price" ;;
  series_mul sv p.

Definition filter_derive (df : DataFrame) : result DataFrame :=
  m <- positive_mask df ;;
  let df_clean := getitem_mask df m in
  rev <- revenue df_clean ;;
  Ok (setitem df_clean "Revenue" rev).

(** The number in a cell (NaN for a str cell, which has none). *)
Definition num_at (r : Row) (c : string) : num :=
  match cell_at r c with
  | CNum x => x
  | CStr _ => NaN
  end.

(** Both numeric columns of the record hold numbers. *)
Definition numeric_row (r : Row) : Prop :=
  (exists x, cell_at r "Sales Volume" = CNum x) /\
  (exists y, cell_at r "price" = CNum y).

(** The condition of line 32 on one record. *)
Definition positive (r : Row) : bool :=
  ltb zero (num_at r "Sales Volume") && ltb zero (num_at r "price").

(** Line 33 on one record. *)
Definition with_revenue (r : Row) : Row :=
  row_set r "Revenue"
    (CNum (mul (num_at r "Sales Volume") (num_at r "price"))).

(** The table lines 32-33 build from a table whose two numeric columns hold
    numbers. *)
Definition clean_of (d : DataFrame) : DataFrame :=
  mkDataFrame
    (if has_column d "Revenue" then columns d else columns d ++ ["Revenue"])
    (map with_revenue (filter positive (rows d))).

(** ** Series reductions (lines 38-41) *)

Definition notnan (x : num) : bool := negb (isnan x).

(** [s.sum()], which skips NaN and is 0 over nothing. *)
Definition series_sum (s : Series) : result num :=
  xs <- mapM num_of_cell s ;;
  Ok (fold_left add (filter notnan xs) zero).

(** [s.mean()]: the sum of the values that are not NaN over their count. *)
Definition series_mean (s : Series) : result num :=
  xs <- mapM num_of_cell s ;;
  let ys := filter notnan xs in
  Ok (divn (fold_left add ys zero) (length ys)).

(** Order of cells as pandas sorts group keys: numbers by value, then
    strings by code unit. *)
Definition cell_compare (a b : cell) : comparison :=
  match a, b with
  | CNum x, CNum y => Num.compare x y
  | CNum _, CStr _ => Lt
  | CStr _, CNum _ => Gt
  | CStr s, CStr t => String.compare s t
  end.

Definition cell_eqb (a b : cell) : bool :=
  match cell_compare a b with Eq => true | _ => false end.

(** A value joins the distinct values seen so far unless it is among them. *)
Definition unique_step (acc : Series) (c : cell) : Series :=
  if existsb (cell_eqb c) acc then acc else acc ++ [c].

(** [s.unique()] in order of first appearance. *)
Definition unique (s : Series) : Series := fold_left unique_step s [].

(** [s.nunique()]: missing cells are not counted. *)
Definition nunique (s : Series) : nat :=
  length (unique (filter (fun c => negb (isna c)) s)).

(** ** Aggregation (lines 46-56) *)

(** One more value for a group sum; NaN values are skipped. *)
Definition add_skipna (acc v : num) : num :=
  if isnan v then acc else add acc v.

(** Groups are kept in key order; a new value joins its group or opens one. *)
Fixpoint upsert (k : cell) (v : num) (acc : list (cell * num)) : list (cell * num) :=
  match acc with
  | [] => [(k, add_skipna zero v)]
  | (k', s) :: rest =>
      match cell_compare k k' with
      | Eq => (k', add_skipna s v) :: rest
      | Lt => (k, add_skipna zero v) :: acc
      | Gt => (k', s) :: upsert k v rest
      end
  end.

(** One row joins the groups, unless its key is missing. *)
Definition group_step (acc : list (cell * num)) (kv : cell * num) : list (cell * num) :=
  if isna (fst kv) then acc else upsert (fst kv) (snd kv) acc.

(** The groups of [groupby]: rows whose key is missing belong to none. *)
Definition group_sums (keys : Series) (vals : list num) : list (cell * num) :=
  fold_left group_step (combine keys vals) [].

Definition group_row (col : string) (kv : cell * num) : Row :=
  row_set [(col, fst kv)] "Sales Volume" (CNum (snd kv)).

(** The table of the groups: the key column, then the sums.  When the key
    column is Sales Volume itself the sums take its place. *)
Definition group_table (col : string) (groups : list (cell * num)) : DataFrame :=
  mkDataFrame
    (if String.eqb col "Sales Volume" then [col] else [col; "Sales Volume"])
    (map (group_row col) groups).

(** [df.groupby(col, as_index=False)["Sales Volume"].sum()] *)
Definition groupby_sum (df : DataFrame) (col : string) : result DataFrame :=
  keys <- getitem df col ;;
  vals <- getitem df "Sales Volume" ;;
  xs <- mapM num_of_cell vals ;;
  Ok (group_table col (group_sums keys xs)).

(** [x] is placed before [y] by a descending sort: NaN goes last. *)
Definition before (x y : num) : bool :=
  isnan y || (notnan x && leb y x).

Fixpoint insert_desc (kr : num * Row) (l : list (num * Row)) : list (num * Row) :=
  match l with
  | [] => [kr]
  | h :: t => if before (fst kr) (fst h) then kr :: l else h :: insert_desc kr t
  end.

(** Rows with equal keys keep their order; pandas leaves the order of ties
    to the sorting routine, and nothing below depends on it. *)
Definition sort_desc (l : list (num * Row)) : list (num * Row) :=
  fold_right insert_desc [] l.

(** [df.sort_values(by, ascending=False)] for a numeric column [by]. *)
Definition sort_values_desc (df : DataFrame) (by_ : string) : result DataFrame :=
  s <- getitem df by_ ;;
  keys <- mapM num_of_cell s ;;
  Ok (mkDataFrame (columns df) (map snd (sort_desc (combine keys (rows df))))).

Definition g (df : DataFrame) (col : string) : result DataFrame :=
  if negb (has_column df col) || empty df
  then Ok DataFrame_new
  else
    t <- groupby_sum df col ;;
    sort_values_desc t "Sales Volume".

(** [df.head(n)] *)
Definition head (n : nat) (df : DataFrame) : DataFrame :=
  mkDataFrame (columns df) (firstn n (rows df)).

(** Line 56 with the literal [10] as a parameter. *)
Definition topN (df_clean : DataFrame) (n : nat) : result DataFrame :=
  t <- groupby_sum df_clean "name" ;;
  s <- sort_values_desc t "Sales Volume" ;;
  Ok (head n s).

(** ** The module's globals (lines 13-56) *)

Record Dashboard : Type := mkDashboard {
  df : DataFrame;
  df_clean : DataFrame;
  total_revenue : num;
  total_units : num;
  avg_price : num;
  unique_products : nat;
  by_position : DataFrame;
  promo : DataFrame;
  by_season : DataFrame;
  by_material : DataFrame;
  by_origin : DataFrame;
  top10 : DataFrame
}.

Section Startup.

Variable parse_float : string -> option num.

(** Normalizer followed by filter/derive: the table every aggregate reads. *)
Definition clean_records (raw : DataFrame) : result DataFrame :=
  d <- normalize parse_float raw ;;
  filter_derive d.

(** What importing the module computes, in statement order.  [csv] is the
    table [pd.read_csv] returns, or [None] when the file does not exist.
    The figures of lines 61-81 are built from these globals by the charting
    library and are left out. *)
Definition startup (csv : option DataFrame) : result Dashboard :=
  d <- normalize parse_float (load csv) ;;
  c <- filter_derive d ;;
  rev <- getitem c "Revenue" ;;
  total_revenue_ <- series_sum rev ;;
  sv <- getitem c "Sales Volume" ;;
  total_units_ <- series_sum sv ;;
  p <- getitem c "price" ;;
  avg_price_ <- series_mean p ;;
  ids <- getitem c "Product ID" ;;
  by_position_ <- g c "Product Position" ;;
  promo_ <- g c "Promotion" ;;
  by_season_ <- g c "season" ;;
  by_material_ <- g c "material" ;;
  by_origin_ <- g c "origin" ;;
  top10_ <- topN c 10 ;;
  Ok (mkDashboard d c total_revenue_ total_units_ avg_price_ (nunique ids)
        by_position_ promo_ by_season_ by_material_ by_origin_ top10_).

End Startup.

(** ** Pages (lines 112-214) *)

Section Pages.

(** The text an f-string shows for a numeric key read through [t.iloc[0]].
    [iloc[0]] hands the row out in one dtype, so an integer key beside
    floating-point sums is shown as a float; the text therefore depends on
    the dtypes of [t] and is left open.  A str key is shown as it is. *)
Variable str_num : DataFrame -> num -> string.

Definition str_cell (t : DataFrame) (c : cell) : string :=
  match c with
  | CStr s => s
  | CNum x => str_num t x
  end.

(** The row [t.iloc[0]] is taken from. *)
Definition first_row (t : DataFrame) : result Row :=
  match rows t with
  | [] => Raise IndexError
  | r :: _ => Ok r
  end.

(** The text of [t.iloc[0][col]] inside an f-string. *)
Definition top_text (t : DataFrame) (col : string) : result string :=
  r <- first_row t ;;
  if has_column t col then Ok (str_cell t (cell_at r col))
  else Raise (KeyError col).

(** One entry of the [insights] list: the sentence, or the empty string when
    the table is empty. *)
Definition insight (pre post : string) (t : DataFrame) (col : string) : result string :=
  if negb (empty t)
  then s <- top_text t col ;; Ok (pre ++ s ++ post)%string
  else Ok "".

Definition recs : list string :=
  ["Increase placement in high-performing product positions.";
   "Review pricing strategy for high-volume items.";
   "Expand sourcing where performance is high.";
   "Boost seasonal campaigns based on strongest seasons."].

(** The two bullet lists of the insights page: the entries of [insights]
    that are not the empty string, and the recommendations. *)
Definition page_insights (m : Dashboard) : result (list string * list string) :=
  i1 <- insight "Most sales come from the '" "' position."
          (by_position m) "Product Position" ;;
  i2 <- insight "Top season: " "" (by_season m) "season" ;;
  i3 <- insight "Strongest region: " "" (by_origin m) "origin" ;;
  Ok (filter (fun i => negb (String.eqb i "")) [i1; i2; i3], recs).

End Pages.

(** The page function the routing callback calls for a path. *)
Inductive page : Type :=
| overview
| details
| advanced
| insights.

Definition change_page (path : string) : page :=
  if String.eqb path "/details" then details
  else if String.eqb path "/advanced" then advanced
  else if String.eqb path "/insights" then insights
  else overview.

(** ** Lines 32-33 over the object store

    [df[mask]] and [.copy()] each build a new table object, and the
    assignment of line 33 updates the object bound to [df_clean]. *)

Definition ref : Type := nat.
Definition store : Type := list DataFrame.

Definition deref (h : store) (l : ref) : result DataFrame :=
  match nth_error h l with
  | Some d => Ok d
  | None => Raise IndexError
  end.

Definition alloc (h : store) (d : DataFrame) : ref * store :=
  (length h, h ++ [d]).

Fixpoint update (h : store) (l : ref) (d : DataFrame) : store :=
  match h, l with
  | [], _ => []
  | _ :: h', O => d :: h'
  | x :: h', S l' => x :: update h' l' d
  end.

(** Runs lines 32-33 with the name [df] bound to the object at [df_ref];
    the result is the object bound to [df_clean] and the store afterwards. *)
Definition exec_filter_derive (h : store) (df_ref : ref) : result (ref * store) :=
  d <- deref h df_ref ;;
  m <- positive_mask d ;;
  let (tmp, h1) := alloc h (getitem_mask d m) in
  t <- deref h1 tmp ;;
  let (df_clean_ref, h2) := alloc h1 t in
  c <- deref h2 df_clean_ref ;;
  rev <- revenue c ;;
  Ok (df_clean_ref, update h2 df_clean_ref (setitem c "Revenue" rev)).

(** ** Order-preserving selection *)

(** [subseq k l]: [k] is [l] with some elements left out, the others in the
    order they have in [l]. *)
Inductive subseq {A : Type} : list A -> list A -> Prop :=
| subseq_nil : subseq [] []
| subseq_skip (x : A) (k l : list A) : subseq k l -> subseq k (x :: l)
| subseq_take (x : A) (k l : list A) : subseq k l -> subseq (x :: k) (x :: l).

(** ** Vocabulary of the statements *)

(** The Sales Volume of a record, as a number. *)
Definition sales (r : Row) : num := num_at r "Sales Volume".

Definition key_before (a b : num * Row) : Prop := before (fst a) (fst b) = true.

(** Non-increasing Sales Volume: every row is at least every later row. *)
Definition sorted_desc (t : DataFrame) : Prop :=
  StronglySorted (fun r1 r2 => leb (sales r2) (sales r1) = true) (rows t).

(** The order a descending sort leaves in general: non-increasing, with the
    rows whose Sales Volume is NaN last. *)
Definition sorted_nan_last (t : DataFrame) : Prop :=
  Sorted (fun r1 r2 => before (sales r1) (sales r2) = true) (rows t).

(** The cells of a column, without the check that the column exists. *)
Definition column (t : DataFrame) (c : string) : Series :=
  map (fun r => cell_at r c) (rows t).

(** The table has a numeric Sales Volume column with positive values. *)
Definition positive_sales (t : DataFrame) : Prop :=
  has_column t "Sales Volume" = true /\
  forall r, In r (rows t) ->
    exists x, cell_at r "Sales Volume" = CNum x /\ ltb zero x = true.

(** The group table after the descending sort on its sums. *)
Definition sorted_groups (col : string) (groups : list (cell * num)) : DataFrame :=
  mkDataFrame (columns (group_table col groups))
    (map snd (sort_desc (map (fun kv => (snd kv, group_row col kv)) groups))).

(** The values [s.sum()] and [s.mean()] take on a numeric column. *)
Definition column_sum (t : DataFrame) (c : string) : num :=
  fold_left add (filter notnan (map (fun r => num_at r c) (rows t))) zero.

Definition column_mean (t : DataFrame) (c : string) : num :=
  let ys := filter notnan (map (fun r => num_at r c) (rows t)) in
  divn (fold_left add ys zero) (length ys).

(** What one table contributes to the insights list: nothing when the table
    is empty, otherwise the one sentence that names the key of a row whose
    Sales Volume no row of the table exceeds (the first row after the
    descending sort, whichever way the sort orders equal sums). *)
Definition contributes (str_num : DataFrame -> num -> string) (pre post : string)
  (t : DataFrame) (col : string) (items : list string) : Prop :=
  if empty t
  then items = []
  else exists r,
      In r (rows t) /\
      (forall r', In r' (rows t) -> leb (sales r') (sales r) = true) /\
      items = [(pre ++ str_cell str_num t (cell_at r col) ++ post)%string].

(** [t.dropna(subset=[col])]: the rows whose cell in [col] is not missing. *)
Definition dropna (t : DataFrame) (col : string) : DataFrame :=
  mkDataFrame (columns t)
    (filter (fun r => negb (isna (cell_at r col))) (rows t)).

(** Two sales, the second at no recorded position. *)
Definition sample_missing_position : DataFrame :=
  mkDataFrame ["Product Position"; "Sales Volume"; "price"]
    [[("Product Position", CStr "Shelf A");
      ("Sales Volume", CNum (Fin 10)); ("price", CNum (Fin 2))];
     [("Product Position", CNum NaN);
      ("Sales Volume", CNum (Fin 5)); ("price", CNum (Fin 1))]].

(** Groups in increasing key order, no key twice. *)
Definition key_lt (a b : cell * num) : Prop :=
  cell_compare (fst a) (fst b) = Lt.

(** Three sales of two products. *)
Definition sample_sales : DataFrame :=
  mkDataFrame ["name"; "Sales Volume"; "price"]
    [[("name", CStr "pen"); ("Sales Volume", CNum (Fin 10)); ("price", CNum (Fin 2))];
     [("name", CStr "ink"); ("Sales Volume", CNum (Fin 3)); ("price", CNum (Fin 5))];
     [("name", CStr "pen"); ("Sales Volume", CNum (Fin 4)); ("price", CNum (Fin 2))]].

(** A parser for the samples: a run of decimal digits reads as that integer
    and nothing else reads as a number.  pandas reads more (signs, fractions,
    exponents, "inf", "nan"); the theorems hold for every parser. *)
Definition digit_of (c : ascii) : option N :=
  let n := N_of_ascii c in
  if ((48 <=? n) && (n <=? 57))%N then Some (n - 48)%N else None.

Fixpoint read_digits (s : string) (acc : N) : option N :=
  match s with
  | EmptyString => Some acc
  | String c s' =>
      match digit_of c with
      | Some d => read_digits s' (10 * acc + d)%N
      | None => None
      end
  end.

Definition parse_digits (s : string) : option num :=
  match s with
  | EmptyString => None
  | _ =>
      match read_digits s 0 with
      | Some n => Some (Fin (inject_Z (Z.of_N n)))
      | None => None
      end
  end.

(** The three raw rows of the worked example: text cells, one of them not a
    number. *)
Definition sample_shelves : DataFrame :=
  mkDataFrame ["Sales Volume"; "price"; "Product Position"]
    [[("Sales Volume", CStr "10"); ("price", CStr "2");
      ("Product Position", CStr "Shelf A")];
     [("Sales Volume", CStr "0"); ("price", CStr "5");
      ("Product Position", CStr "Shelf B")];
     [("Sales Volume", CStr "3"); ("price", CStr "bad");
      ("Product Position", CStr "Shelf A")]].

Definition sample_sales_clean : DataFrame :=
  Eval vm_compute in
    match clean_records parse_digits sample_sales with
    | Ok c => c
    | Raise _ => DataFrame_new
    end.

(** ** Vocabulary of the further properties *)

(** The Sales Volume of the rows of [t] whose [col] cell equals [k], added
    in row order from 0, NaN volumes skipped. *)
Definition total_for (t : DataFrame) (col : string) (k : cell) : num :=
  fold_left add_skipna
    (map sales (filter (fun r => cell_eqb (cell_at r col) k) (rows t)))
    zero.

(** The same total over (key, value) pairs. *)
Definition pair_total (l : list (cell * num)) (k : cell) : num :=
  fold_left add_skipna
    (map snd (filter (fun p => cell_eqb (fst p) k) l))
    zero.

(** The name groups of the sample, as [g] returns them. *)
Definition sample_name_totals : DataFrame :=
  Eval vm_compute in
    match g sample_sales_clean "name" with
    | Ok a => a
    | Raise _ => DataFrame_new
    end.

(** A record after the loop of lines 25-27 has added the columns [ms]. *)
Definition fill_row (ms : list string) (r : Row) : Row :=
  fold_left (fun r' c => row_set r' c (CStr "")) ms r.

(** The expected columns the table lacks, in the order of [expected_cols]. *)
Definition missing_cols (d : DataFrame) : list string :=
  filter (fun c => negb (has_column d c)) expected_cols.

(** A table that has no price column. *)
Definition sample_no_price : DataFrame :=
  mkDataFrame ["name"; "Sales Volume"]
    [[("name", CStr "pen"); ("Sales Volume", CNum (Fin 10))];
     [("name", CStr "ink"); ("Sales Volume", CNum (Fin 3))]].

(** ** Figures (lines 61-81)

    A figure is kept as what the script hands to the charting library: the
    kind of chart, the table, the columns bound to the axes and the title. *)

(** Exceptions the presentation code can meet besides those of pandas: the
    ValueError of [px.bar] and [px.scatter] for an axis that names no column
    (and of [int] on NaN), and the OverflowError of [int] on an infinity. *)
Inductive py_exn : Type :=
| Pandas (e : exn)
| ValueError
| OverflowError.

Inductive outcome (A : Type) : Type :=
| Return (a : A)
| Throw (e : py_exn).
Arguments Return {A} a.
Arguments Throw {A} e.

Definition and_then {A B : Type} (m : outcome A) (k : A -> outcome B) : outcome B :=
  match m with
  | Return a => k a
  | Throw e => Throw e
  end.

Notation "x <~ m ;; k" := (and_then m (fun x => k))
  (at level 61, m at next level, right associativity).

Definition of_result {A : Type} (m : result A) : outcome A :=
  match m with
  | Ok a => Return a
  | Raise e => Throw (Pandas e)
  end.

(** Margins as [dict(t=.., l=.., r=.., b=..)]. *)
Record Margin : Type := mkMargin {
  margin_t : nat;
  margin_l : nat;
  margin_r : nat;
  margin_b : nat
}.

Inductive Figure : Type :=
| go_Figure
| bar_chart (data : DataFrame) (x y : string) (horizontal : bool)
    (title : string) (margin : option Margin)
| scatter_chart (data : DataFrame) (x y hover_name title : string).

(** [px.bar(df, x=x, y=y, title=title)], with [orientation="h"] when
    [horizontal]: an axis that is not a column of [df] is a ValueError. *)
Definition px_bar (d : DataFrame) (x y : string) (horizontal : bool)
  (title : string) : outcome Figure :=
  if has_column d x && has_column d y
  then Return (bar_chart d x y horizontal title None)
  else Throw ValueError.

(** [px.scatter(df, x=x, y=y, hover_name=hover_name, title=title)] *)
Definition px_scatter (d : DataFrame) (x y hover_name title : string)
  : outcome Figure :=
  if has_column d x && has_column d y && has_column d hover_name
  then Return (scatter_chart d x y hover_name title)
  else Throw ValueError.

(** [fig.update_layout(margin=m)] *)
Definition update_layout (fig : Figure) (m : Margin) : Figure :=
  match fig with
  | bar_chart d x y h title _ => bar_chart d x y h title (Some m)
  | other => other
  end.

Definition chart_margin : Margin := mkMargin 40 10 10 10.

Definition make_bar (d : DataFrame) (x y title : string) : outcome Figure :=
  if empty d then Return go_Figure
  else
    fig <~ px_bar d x y false title ;;
    Return (update_layout fig chart_margin).

Definition make_hbar (d : DataFrame) (x y title : string) : outcome Figure :=
  if empty d then Return go_Figure
  else
    fig <~ px_bar d x y true title ;;
    Return (update_layout fig chart_margin).

Record Figures : Type := mkFigures {
  fig_season : Figure;
  fig_price_vs : Figure;
  fig_top10 : Figure;
  fig_material : Figure;
  fig_position : Figure;
  fig_promo : Figure;
  fig_origin : Figure
}.

(** Lines 75-81, in statement order. *)
Definition figures (m : Dashboard) : outcome Figures :=
  fig_season_ <~ make_bar (by_season m) "season" "Sales Volume" "Sales by Season" ;;
  fig_price_vs_ <~
    (if negb (empty (df_clean m))
     then px_scatter (df_clean m) "price" "Sales Volume" "name"
            "Price vs Sales Volume"
     else Return go_Figure) ;;
  fig_top10_ <~ make_hbar (top10 m) "Sales Volume" "name"
                  "Top 10 Products by Sales Volume" ;;
  fig_material_ <~ make_bar (by_material m) "material" "Sales Volume"
                     "Sales by Material" ;;
  fig_position_ <~ make_bar (by_position m) "Product Position" "Sales Volume"
                     "Sales by Product Position" ;;
  fig_promo_ <~ make_bar (promo m) "Promotion" "Sales Volume"
                  "Sales: Promotion vs No Promotion" ;;
  fig_origin_ <~ make_bar (by_origin m) "origin" "Sales Volume"
                   "Sales by Region / Origin" ;;
  Return (mkFigures fig_season_ fig_price_vs_ fig_top10_ fig_material_
            fig_position_ fig_promo_ fig_origin_).

(** The chart [make_bar] and [make_hbar] build when no axis is refused. *)
Definition bar_or_blank (d : DataFrame) (x y : string) (horizontal : bool)
  (title : string) : Figure :=
  if empty d then go_Figure
  else bar_chart d x y horizontal title (Some chart_margin).

(** ** Page contents (lines 86-180 and 205-214)

    The component tree of a page, without the style dictionaries. *)

Definition ICON_REVENUE : string := "https://i.imgur.com/8Km9tLL.png".
Definition ICON_UNITS : string := "https://i.imgur.com/sWJYqz0.png".
Definition ICON_PRICE : string := "https://i.imgur.com/4YQZ8zC.png".
Definition ICON_PRODUCTS : string := "https://i.imgur.com/AFaH7aV.png".

#[local] Unset Elimination Schemes.
Inductive html : Type :=
| Div (children : list html)
| Img (src : string)
| Text (s : string)
| Graph (figure : Figure)
| H3 (s : string)
| Ul (items : list html)
| Li (s : string)
| Br.
#[local] Set Elimination Schemes.

(** [int(x)] of a float: truncation toward zero, ValueError on NaN and
    OverflowError on an infinity. *)
Definition int_of_num (x : num) : outcome Z :=
  match x with
  | Fin q => Return (Z.quot (Qnum q) (Zpos (Qden q)))
  | NaN => Throw ValueError
  | PInf | NInf => Throw OverflowError
  end.

Section PageContents.

(** The f-string formats [{x:,.2f}], [{n:,}] and [{n}]. *)
Variable fmt_money : num -> string.
Variable fmt_thousands : Z -> string.
Variable str_nat : nat -> string.
Variable str_num : DataFrame -> num -> string.

Definition kpi_card (icon value label : string) : html :=
  Div [Img icon; Div [Text value]; Div [Text label]].

Definition page_overview (m : Dashboard) (figs : Figures) : outcome html :=
  let revenue_text := ("$" ++ fmt_money (total_revenue m))%string in
  units <~ int_of_num (total_units m) ;;
  let price_text := ("$" ++ fmt_money (avg_price m))%string in
  let kpis :=
    Div [kpi_card ICON_REVENUE revenue_text "Total Revenue";
         kpi_card ICON_UNITS (fmt_thousands units) "Total Units";
         kpi_card ICON_PRICE price_text "Average Price";
         kpi_card ICON_PRODUCTS (str_nat (unique_products m)) "Unique Products"] in
  let charts :=
    Div [Div [Graph (fig_position figs)];
         Div [Graph (fig_promo figs)];
         Div [Graph (fig_origin figs)]] in
  Return (Div [kpis; charts]).

Definition page_details (figs : Figures) : html :=
  Div [Div [Graph (fig_top10 figs)]; Div [Graph (fig_material figs)]].

Definition page_advanced (figs : Figures) : html :=
  Div [Div [Graph (fig_season figs)]; Div [Graph (fig_price_vs figs)]].

(** The component tree [page_insights] returns, from its two bullet lists. *)
Definition page_insights_html (m : Dashboard) : outcome html :=
  lists <~ of_result (page_insights str_num m) ;;
  Return (Div [H3 "Insights"; Ul (map Li (fst lists)); Br;
               H3 "Recommendations"; Ul (map Li (snd lists))]).

(** What the routing callback returns for a path: the result of the page
    function [change_page] selects. *)
Definition page_content (m : Dashboard) (figs : Figures) (path : string)
  : outcome html :=
  match change_page path with
  | details => Return (page_details figs)
  | advanced => Return (page_advanced figs)
  | insights => page_insights_html m
  | overview => page_overview m figs
  end.

End PageContents.

(** One sale whose volume reads as an infinity. *)
Definition sample_infinite_volume : DataFrame :=
  mkDataFrame ["name"; "Sales Volume"; "price"]
    [[("name", CStr "pen"); ("Sales Volume", CNum PInf); ("price", CNum (Fin 2))]].

(** A number that is finite or plus infinity: what a sum of positive
    volumes can be. *)
Definition not_below (s : num) : bool :=
  match s with
  | Fin _ | PInf => true
  | NaN | NInf => false
  end.

(** ** Whole-number volumes

    Sales volumes are counts.  While the values are whole numbers and what
    is added or multiplied stays below 2^53, an int64 column does not wrap
    and a float64 column does not round, so the sums and products are the
    sums and products of the integers. *)

(** The cell holds the whole number [z]. *)
Definition whole (c : cell) (z : Z) : Prop :=
  exists q, c = CNum (Fin q) /\ (q == inject_Z z)%Q.

(** The whole units of a record: its Sales Volume rounded down. *)
Definition units_of (r : Row) : Z :=
  match cell_at r "Sales Volume" with
  | CNum (Fin q) => Qfloor q
  | _ => 0%Z
  end.

Definition Z_sum (zs : list Z) : Z := fold_right Z.add 0%Z zs.

(** Every Sales Volume of [t] is a whole number, none is negative, and
    their total is below 2^53. *)
Definition whole_volumes (t : DataFrame) : Prop :=
  (forall r, In r (rows t) ->
     whole (cell_at r "Sales Volume") (units_of r) /\ (0 <= units_of r)%Z) /\
  (Z_sum (map units_of (rows t)) < 2 ^ 53)%Z.

(** Two cells hold the same group key: the same string or the same number.
    A missing cell is the key of no group. *)
Definition same_key (a b : cell) : bool :=
  match a, b with
  | CStr s, CStr t => String.eqb s t
  | CNum (Fin p), CNum (Fin q) => Qeq_bool p q
  | CNum PInf, CNum PInf => true
  | CNum NInf, CNum NInf => true
  | _, _ => false
  end.

(** The records of [t] whose key in [col] is [k]. *)
Definition records_of_key (t : DataFrame) (col : string) (k : cell) : list Row :=
  filter (fun r => same_key (cell_at r col) k) (rows t).

(** The units sold under the key [k]: the sum, over the integers, of the
    units of the records of that key. *)
Definition volume_of_key (t : DataFrame) (col : string) (k : cell) : Z :=
  Z_sum (map units_of (records_of_key t col k)).

(** * Properties *)

(** ** The worked example

    Rows 2 and 3 are dropped (volume 0, price not a number); the first row
    stays with revenue 20. *)

Example coerce_sample :
  coerce parse_digits [CStr "10"; CStr "bad"; CStr ""; CNum NaN; CNum (Fin 3)] =
  [CNum (Fin 10); CNum zero; CNum zero; CNum zero; CNum (Fin 3)].
Proof. reflexivity. Qed.

Example clean_sample :
  match clean_records parse_digits sample_shelves with
  | Ok c =>
      map (fun r => (cell_at r "Sales Volume", cell_at r "price",
                     cell_at r "Revenue", cell_at r "Product Position")) (rows c)
  | Raise _ => []
  end =
  [(CNum (Fin 10), CNum (Fin 2), CNum (Fin 20), CStr "Shelf A")].
Proof. vm_compute. reflexivity. Qed.

Example startup_sample :
  match startup parse_digits (Some sample_shelves) with
  | Ok m => Some (total_revenue m, total_units m, avg_price m, by_position m)
  | Raise _ => None
  end =
  Some (Fin 20, Fin 10, Fin 2,
        mkDataFrame ["Product Position"; "Sales Volume"]
          [[("Product Position", CStr "Shelf A"); ("Sales Volume", CNum (Fin 10))]]).
Proof. vm_compute. reflexivity. Qed.

Example g_sample :
  g sample_sales_clean "name" =
  Ok (mkDataFrame ["name"; "Sales Volume"]
        [[("name", CStr "pen"); ("Sales Volume", CNum (Fin 14))];
         [("name", CStr "ink"); ("Sales Volume", CNum (Fin 3))]]).
Proof. vm_compute. reflexivity. Qed.

Example top1_sample :
  topN sample_sales_clean 1 =
  Ok (mkDataFrame ["name"; "Sales Volume"]
        [[("name", CStr "pen"); ("Sales Volume", CNum (Fin 14))]]).
Proof. vm_compute. reflexivity. Qed.

Example change_page_sample :
  map change_page ["/"; ""; "/details"; "/advanced"; "/insights"; "/Details"; "/details/"] =
  [overview; overview; details; advanced; insights; overview; overview].
Proof. reflexivity. Qed.

(** ** Records *)

Lemma cell_at_row_set_same (r : Row) (c : string) (v : cell) :
  cell_at (row_set r c v) c = v.
Proof.
  induction r as [| [k w] r IH]; simpl.
  - now rewrite String.eqb_refl.
  - destruct (String.eqb k c) eqn:E; simpl; now rewrite E.
Qed.

Lemma cell_at_row_set_other (r : Row) (c c' : string) (v : cell) :
  c <> c' -> cell_at (row_set r c v) c' = cell_at r c'.
Proof.
  intros Hne. induction r as [| [k w] r IH]; simpl.
  - destruct (String.eqb c c') eqn:E; [apply String.eqb_eq in E; contradiction | reflexivity].
  - destruct (String.eqb k c) eqn:E; simpl.
    + apply String.eqb_eq in E; subst k.
      destruct (String.eqb c c') eqn:E'; [apply String.eqb_eq in E'; contradiction | reflexivity].
    + now rewrite IH.
Qed.

Lemma keys_row_set_same (r : Row) (c : string) (v : cell) :
  In c (map fst (row_set r c v)).
Proof.
  induction r as [| [k w] r IH]; simpl.
  - now left.
  - destruct (String.eqb k c) eqn:E; simpl.
    + left. now apply String.eqb_eq.
    + now right.
Qed.

Lemma keys_row_set_keep (r : Row) (c c' : string) (v : cell) :
  In c' (map fst r) -> In c' (map fst (row_set r c v)).
Proof.
  induction r as [| [k w] r IH]; simpl; [tauto |].
  intros [E | H]; destruct (String.eqb k c); simpl in *; auto.
Qed.

Lemma row_set_cell_at (r : Row) (c : string) :
  In c (map fst r) -> row_set r c (cell_at r c) = r.
Proof.
  induction r as [| [k w] r IH]; simpl; [tauto |].
  intros H. destruct (String.eqb k c) eqn:E; [reflexivity |].
  destruct H as [-> | H]; [now rewrite String.eqb_refl in E |].
  now rewrite IH.
Qed.

Lemma zip_set_map (f : Row -> cell) (rs : list Row) (c : string) :
  zip_set rs c (map f rs) = map (fun r => row_set r c (f r)) rs.
Proof.
  induction rs as [| r rs IH]; simpl; [reflexivity | now rewrite IH].
Qed.

Lemma zip_set_repeat (rs : list Row) (c : string) (v : cell) :
  zip_set rs c (repeat v (length rs)) = map (fun r => row_set r c v) rs.
Proof.
  induction rs as [| r rs IH]; simpl; [reflexivity | now rewrite IH].
Qed.

(** ** Columns *)

Lemma has_column_In (d : DataFrame) (c : string) :
  has_column d c = true <-> In c (columns d).
Proof.
  unfold has_column. rewrite existsb_exists. split.
  - intros [x [Hx E]]. apply String.eqb_eq in E. now subst.
  - intros H. exists c. split; [assumption | apply String.eqb_refl].
Qed.

Lemma has_column_setitem_same (d : DataFrame) (c : string) (s : Series) :
  has_column (setitem d c s) c = true.
Proof.
  apply has_column_In. unfold setitem; simpl.
  destruct (has_column d c) eqn:E.
  - now apply has_column_In.
  - apply in_or_app. right. now left.
Qed.

Lemma has_column_setitem_keep (d : DataFrame) (c c' : string) (s : Series) :
  has_column d c' = true -> has_column (setitem d c s) c' = true.
Proof.
  intros H. apply has_column_In. apply has_column_In in H.
  unfold setitem; simpl. destruct (has_column d c); [assumption |].
  apply in_or_app. now left.
Qed.

Lemma ensure_step_keep (d : DataFrame) (c c' : string) :
  has_column d c' = true -> has_column (ensure_step d c) c' = true.
Proof.
  intros H. unfold ensure_step. destruct (has_column d c); [assumption |].
  now apply has_column_setitem_keep.
Qed.

Lemma ensure_fold_keep (l : list string) (d : DataFrame) (c : string) :
  has_column d c = true -> has_column (fold_left ensure_step l d) c = true.
Proof.
  revert d. induction l as [| x l IH]; simpl; intros d H; [assumption |].
  apply IH. now apply ensure_step_keep.
Qed.

Lemma ensure_fold_adds (l : list string) (d : DataFrame) (c : string) :
  In c l -> has_column (fold_left ensure_step l d) c = true.
Proof.
  revert d. induction l as [| x l IH]; simpl; intros d H; [contradiction |].
  destruct H as [-> | H]; [| now apply IH].
  apply ensure_fold_keep. unfold ensure_step.
  destruct (has_column d c) eqn:E; [assumption |].
  apply has_column_setitem_same.
Qed.

Lemma ensure_fold_fixed (l : list string) (d : DataFrame) :
  (forall c, In c l -> has_column d c = true) -> fold_left ensure_step l d = d.
Proof.
  induction l as [| x l IH]; simpl; intros H; [reflexivity |].
  unfold ensure_step at 2. rewrite (H x) by now left.
  apply IH. intros c Hc. apply H. now right.
Qed.

(** After the loop of lines 25-27 every expected column is there. *)
Lemma ensure_columns_has (d : DataFrame) (c : string) :
  In c expected_cols -> has_column (ensure_columns d) c = true.
Proof. apply ensure_fold_adds. Qed.

Lemma ensure_columns_fixed (d : DataFrame) :
  (forall c, In c expected_cols -> has_column d c = true) -> ensure_columns d = d.
Proof. apply ensure_fold_fixed. Qed.

(** ** Numeric coercion *)

Section NormalizerFacts.

Variable parse_float : string -> option num.

Lemma coerce_map (s : Series) : coerce parse_float s = map (coerce_cell parse_float) s.
Proof. unfold coerce, fillna, to_numeric. now rewrite map_map. Qed.

Lemma coerce_cell_number (c : cell) :
  exists x, coerce_cell parse_float c = CNum x /\ isnan x = false.
Proof.
  unfold coerce_cell, fillna_cell.
  destruct c as [s | x]; simpl.
  - destruct (parse_float s) as [y |]; simpl.
    + destruct (isnan y) eqn:E; [now exists zero | now exists y].
    + now exists zero.
  - destruct (isnan x) eqn:E; [now exists zero | now exists x].
Qed.

Lemma coerce_cell_idem (c : cell) : coerce_cell parse_float (coerce_cell parse_float c) = coerce_cell parse_float c.
Proof.
  destruct (coerce_cell_number c) as [x [-> Hx]].
  unfold coerce_cell, fillna_cell; simpl. now rewrite Hx.
Qed.

Lemma coerce_column_ok (d : DataFrame) (c : string) :
  has_column d c = true ->
  coerce_column parse_float d c =
  Ok (mkDataFrame (columns d) (map (coerce_row parse_float c) (rows d))).
Proof.
  intros H. unfold coerce_column, getitem, setitem. rewrite H. simpl.
  rewrite coerce_map, map_map, zip_set_map. reflexivity.
Qed.

(** The normalizer never raises, and this is the table it builds. *)
Lemma normalize_ok (raw : DataFrame) :
  normalize parse_float raw =
  Ok (mkDataFrame (columns (ensure_columns raw))
        (map (fun r => coerce_row parse_float "price" (coerce_row parse_float "Sales Volume" r))
             (rows (ensure_columns raw)))).
Proof.
  unfold normalize.
  assert (Hsv : has_column (ensure_columns raw) "Sales Volume" = true)
    by (apply ensure_columns_has; simpl; tauto).
  assert (Hp : has_column (ensure_columns raw) "price" = true)
    by (apply ensure_columns_has; simpl; tauto).
  generalize dependent (ensure_columns raw). intros d Hsv Hp.
  rewrite (coerce_column_ok d "Sales Volume" Hsv). unfold bind.
  rewrite coerce_column_ok by exact Hp.
  cbn [columns rows]. now rewrite map_map.
Qed.

Lemma cell_at_coerce_row_same (c : string) (r : Row) :
  cell_at (coerce_row parse_float c r) c = coerce_cell parse_float (cell_at r c).
Proof. apply cell_at_row_set_same. Qed.

Lemma cell_at_coerce_row_other (c c' : string) (r : Row) :
  c <> c' -> cell_at (coerce_row parse_float c r) c' = cell_at r c'.
Proof. apply cell_at_row_set_other. Qed.

Lemma coerce_rows_cells (r : Row) :
  exists x y,
    let r' := coerce_row parse_float "price" (coerce_row parse_float "Sales Volume" r) in
    cell_at r' "Sales Volume" = CNum x /\ isnan x = false /\
    cell_at r' "price" = CNum y /\ isnan y = false.
Proof.
  destruct (coerce_cell_number (cell_at r "Sales Volume")) as [x [Ex Hx]].
  destruct (coerce_cell_number (cell_at (coerce_row parse_float "Sales Volume" r) "price"))
    as [y [Ey Hy]].
  exists x, y. cbv zeta.
  rewrite cell_at_coerce_row_other by discriminate.
  rewrite !cell_at_coerce_row_same. rewrite Ex, Ey. auto.
Qed.

Lemma coerce_row_fixed (c : string) (r : Row) :
  In c (map fst r) -> coerce_cell parse_float (cell_at r c) = cell_at r c ->
  coerce_row parse_float c r = r.
Proof.
  intros Hk E. unfold coerce_row. rewrite E. now apply row_set_cell_at.
Qed.

Lemma coerce_rows_idem (r : Row) :
  let r' := coerce_row parse_float "price" (coerce_row parse_float "Sales Volume" r) in
  coerce_row parse_float "price" (coerce_row parse_float "Sales Volume" r') = r'.
Proof.
  intros r'.
  assert (H1 : coerce_row parse_float "Sales Volume" r' = r').
  { apply coerce_row_fixed.
    - apply keys_row_set_keep, keys_row_set_same.
    - subst r'. rewrite cell_at_coerce_row_other by discriminate.
      rewrite cell_at_coerce_row_same. apply coerce_cell_idem. }
  rewrite H1. apply coerce_row_fixed.
  - apply keys_row_set_same.
  - subst r'. rewrite cell_at_coerce_row_same. apply coerce_cell_idem.
Qed.

Lemma normalize_shape (raw : DataFrame) :
  exists e, has_expected e /\ normalize parse_float raw = Ok (normalized_of parse_float e).
Proof.
  exists (ensure_columns raw). split.
  - intros c Hc. now apply ensure_columns_has.
  - apply normalize_ok.
Qed.

Lemma has_expected_normalized (e : DataFrame) :
  has_expected e -> has_expected (normalized_of parse_float e).
Proof.
  intros H c Hc. apply has_column_In. unfold normalized_of. cbn [columns].
  apply has_column_In. now apply H.
Qed.

Lemma normalize_fixed (e : DataFrame) :
  has_expected e -> normalize parse_float (normalized_of parse_float e) = Ok (normalized_of parse_float e).
Proof.
  intros H. rewrite normalize_ok.
  rewrite (ensure_columns_fixed (normalized_of parse_float e))
    by (apply has_expected_normalized, H).
  unfold normalized_of. cbn [columns rows]. rewrite map_map. do 2 f_equal.
  apply map_ext. intros r. apply coerce_rows_idem.
Qed.

Lemma normalized_numeric (e : DataFrame) (r : Row) :
  In r (rows (normalized_of parse_float e)) ->
  exists x y, cell_at r "Sales Volume" = CNum x /\ isnan x = false /\
              cell_at r "price" = CNum y /\ isnan y = false.
Proof.
  unfold normalized_of. cbn [rows]. intros Hr. apply in_map_iff in Hr.
  destruct Hr as [r0 [<- _]]. apply coerce_rows_cells.
Qed.

End NormalizerFacts.

(** ** The schema normalizer *)

(** C4: numeric coercion of the Sales Volume and price columns is total.
    Every cell becomes a number that is not NaN, a cell that fails to parse
    or is missing becomes 0, and the normalizer returns a table (it raises
    nothing) in which both columns hold such numbers in every row. *)
Theorem numeric_coercion_total (parse_float : string -> option num) :
  (forall c, exists x, coerce_cell parse_float c = CNum x /\ isnan x = false) /\
  (forall c, unparsable parse_float c -> coerce_cell parse_float c = CNum zero) /\
  (forall s, coerce parse_float s = map (coerce_cell parse_float) s) /\
  (forall raw, exists d,
      normalize parse_float raw = Ok d /\
      forall r, In r (rows d) ->
        exists x y,
          cell_at r "Sales Volume" = CNum x /\ isnan x = false /\
          cell_at r "price" = CNum y /\ isnan y = false).
Proof.
  split; [apply coerce_cell_number |].
  split.
  { intros [s | x] H; simpl in H; unfold coerce_cell, fillna_cell; simpl.
    - now rewrite H.
    - now subst x. }
  split; [apply coerce_map |].
  intros raw. destruct (normalize_shape parse_float raw) as [e [_ Hn]].
  exists (normalized_of parse_float e). split; [exact Hn |].
  apply normalized_numeric.
Qed.

(** C6: the schema normalizer is idempotent.  It returns a table for every
    input, and applied to that table it returns the same table. *)
Theorem normalize_idempotent (parse_float : string -> option num) (raw : DataFrame) :
  exists d, normalize parse_float raw = Ok d /\ normalize parse_float d = Ok d.
Proof.
  destruct (normalize_shape parse_float raw) as [e [He Hn]].
  exists (normalized_of parse_float e). split; [exact Hn |].
  now apply normalize_fixed.
Qed.

(** ** Filter / derive *)

Lemma mapM_ok {A B : Type} (f : A -> result B) (h : A -> B) (l : list A) :
  (forall a, In a l -> f a = Ok (h a)) -> mapM f l = Ok (map h l).
Proof.
  induction l as [| a l IH]; simpl; intros H; [reflexivity |].
  rewrite (H a) by now left. simpl.
  rewrite IH by (intros b Hb; apply H; now right). reflexivity.
Qed.

Lemma mapM_inv {A B : Type} (f : A -> result B) (l : list A) (bs : list B) :
  mapM f l = Ok bs -> Forall2 (fun a b => f a = Ok b) l bs.
Proof.
  revert bs. induction l as [| a l IH]; simpl; intros bs H.
  - injection H as <-. constructor.
  - destruct (f a) as [b | e] eqn:Ea; simpl in H; [| discriminate].
    destruct (mapM f l) as [bs' | e]; simpl in H; [| discriminate].
    injection H as <-. constructor; [assumption | now apply IH].
Qed.

Lemma mask_and_map {A : Type} (p q : A -> bool) (l : list A) :
  mask_and (map p l) (map q l) = map (fun a => p a && q a) l.
Proof.
  induction l as [| a l IH]; simpl; [reflexivity | now rewrite IH].
Qed.

Lemma select_map (p : Row -> bool) (rs : list Row) :
  select rs (map p rs) = filter p rs.
Proof.
  induction rs as [| r rs IH]; simpl; [reflexivity |].
  destruct (p r); now rewrite IH.
Qed.

Lemma gt_zero_numeric (c : string) (rs : list Row) :
  (forall r, In r rs -> exists x, cell_at r c = CNum x) ->
  gt_zero (map (fun r => cell_at r c) rs) =
  Ok (map (fun r => ltb zero (num_at r c)) rs).
Proof.
  intros H. unfold gt_zero.
  rewrite (mapM_ok _ (fun v => ltb zero match v with CNum x => x | CStr _ => NaN end)).
  - now rewrite map_map.
  - intros v Hv. apply in_map_iff in Hv. destruct Hv as [r [<- Hr]].
    destruct (H r Hr) as [x ->]. reflexivity.
Qed.

Lemma positive_mask_ok (d : DataFrame) :
  has_column d "Sales Volume" = true ->
  has_column d "price" = true ->
  (forall r, In r (rows d) -> numeric_row r) ->
  positive_mask d = Ok (map positive (rows d)).
Proof.
  intros Hsv Hp Hnum. unfold positive_mask, getitem. rewrite Hsv, Hp.
  cbn [bind].
  rewrite gt_zero_numeric by (intros r Hr; apply (Hnum r Hr)). cbn [bind].
  rewrite gt_zero_numeric by (intros r Hr; apply (Hnum r Hr)). cbn [bind].
  now rewrite mask_and_map.
Qed.

Lemma series_mul_numeric (rs : list Row) :
  (forall r, In r rs -> numeric_row r) ->
  series_mul (map (fun r => cell_at r "Sales Volume") rs)
             (map (fun r => cell_at r "price") rs) =
  Ok (map (fun r => CNum (mul (num_at r "Sales Volume") (num_at r "price"))) rs).
Proof.
  induction rs as [| r rs IH]; intros H; [reflexivity |].
  cbn [map series_mul].
  destruct (H r (or_introl eq_refl)) as [[x Ex] [y Ey]].
  unfold num_at at 1 2. rewrite Ex, Ey. cbn [mul_cell num_of_cell bind].
  rewrite IH by (intros r' Hr'; apply H; now right). reflexivity.
Qed.

Lemma revenue_ok (d : DataFrame) :
  has_column d "Sales Volume" = true ->
  has_column d "price" = true ->
  (forall r, In r (rows d) -> numeric_row r) ->
  revenue d =
  Ok (map (fun r => CNum (mul (num_at r "Sales Volume") (num_at r "price"))) (rows d)).
Proof.
  intros Hsv Hp Hnum. unfold revenue, getitem. rewrite Hsv, Hp. cbn [bind].
  now apply series_mul_numeric.
Qed.

Lemma filter_derive_ok (d : DataFrame) :
  has_column d "Sales Volume" = true ->
  has_column d "price" = true ->
  (forall r, In r (rows d) -> numeric_row r) ->
  positive_mask d = Ok (map positive (rows d)) /\
  revenue (getitem_mask d (map positive (rows d))) =
    Ok (map (fun r => CNum (mul (num_at r "Sales Volume") (num_at r "price")))
            (filter positive (rows d))) /\
  filter_derive d = Ok (clean_of d).
Proof.
  intros Hsv Hp Hnum.
  assert (Hm := positive_mask_ok d Hsv Hp Hnum).
  assert (Hr : revenue (getitem_mask d (map positive (rows d))) =
    Ok (map (fun r => CNum (mul (num_at r "Sales Volume") (num_at r "price")))
            (filter positive (rows d)))).
  { rewrite revenue_ok; unfold getitem_mask; cbn [columns rows]; try assumption.
    - now rewrite select_map.
    - rewrite select_map. intros r Hr. apply filter_In in Hr. now apply Hnum. }
  repeat split; try assumption.
  unfold filter_derive. rewrite Hm. cbn [bind]. rewrite Hr. cbn [bind].
  unfold clean_of, setitem, getitem_mask. cbn [columns rows].
  rewrite select_map, zip_set_map. reflexivity.
Qed.

Section PipelineFacts.

Variable parse_float : string -> option num.

Lemma normalized_numeric_row (e : DataFrame) (r : Row) :
  In r (rows (normalized_of parse_float e)) -> numeric_row r.
Proof.
  intros Hr. destruct (normalized_numeric parse_float e r Hr)
    as [x [y [Hx [_ [Hy _]]]]].
  split; eauto.
Qed.

Lemma filter_derive_normalized (e : DataFrame) :
  has_expected e ->
  filter_derive (normalized_of parse_float e) =
  Ok (clean_of (normalized_of parse_float e)).
Proof.
  intros He. apply has_expected_normalized with (parse_float := parse_float) in He.
  apply filter_derive_ok.
  - apply He; simpl; tauto.
  - apply He; simpl; tauto.
  - apply normalized_numeric_row.
Qed.

(** Normalizer and filter/derive always return, and this is the result. *)
Lemma clean_records_ok (raw : DataFrame) :
  exists e, has_expected e /\
            normalize parse_float raw = Ok (normalized_of parse_float e) /\
            clean_records parse_float raw =
              Ok (clean_of (normalized_of parse_float e)).
Proof.
  destruct (normalize_shape parse_float raw) as [e [He Hn]].
  exists e. repeat split; try assumption.
  unfold clean_records. rewrite Hn. cbn [bind].
  now apply filter_derive_normalized.
Qed.

End PipelineFacts.

Lemma filter_subseq {A : Type} (p : A -> bool) (l : list A) :
  subseq (filter p l) l.
Proof.
  induction l as [| a l IH]; simpl; [constructor |].
  destruct (p a); now constructor.
Qed.

Lemma positive_numeric (r : Row) :
  numeric_row r -> positive r = true ->
  exists x y,
    cell_at r "Sales Volume" = CNum x /\ ltb zero x = true /\
    cell_at r "price" = CNum y /\ ltb zero y = true /\
    with_revenue r = row_set r "Revenue" (CNum (mul x y)).
Proof.
  intros [[x Ex] [y Ey]] Hp. exists x, y.
  unfold positive, with_revenue, num_at in *. rewrite Ex, Ey in *.
  apply andb_prop in Hp. destruct Hp as [Hx Hy]. auto.
Qed.

(** ** The object store *)

Lemma nth_error_last {A : Type} (h : list A) (d : A) :
  nth_error (h ++ [d]) (length h) = Some d.
Proof.
  induction h as [| x h IH]; simpl; [reflexivity | assumption].
Qed.

Lemma deref_last (h : store) (d : DataFrame) : deref (h ++ [d]) (length h) = Ok d.
Proof. unfold deref. now rewrite nth_error_last. Qed.

Lemma update_last (h : store) (x y : DataFrame) :
  update (h ++ [x]) (length h) y = h ++ [y].
Proof.
  induction h as [| z h IH]; simpl; [reflexivity | now rewrite IH].
Qed.

Lemma firstn_length_app {A : Type} (h l : list A) :
  firstn (length h) (h ++ l) = h.
Proof.
  induction h as [| x h IH]; simpl; [reflexivity | now rewrite IH].
Qed.

Lemma deref_app (h l : store) (k : ref) (d : DataFrame) :
  deref h k = Ok d -> deref (h ++ l) k = Ok d.
Proof.
  unfold deref. destruct (nth_error h k) as [x |] eqn:E; [| discriminate].
  intros H. rewrite nth_error_app1 by (apply nth_error_Some; congruence).
  now rewrite E.
Qed.

(** Lines 32-33 run on any table the filter accepts: the result is a new
    object, and every object that was in the store is left as it was. *)
Lemma exec_filter_derive_ok (h : store) (d : DataFrame) :
  has_column d "Sales Volume" = true ->
  has_column d "price" = true ->
  (forall r, In r (rows d) -> numeric_row r) ->
  let h0 := h ++ [d] in
  exec_filter_derive h0 (length h) =
  Ok (S (length h0),
      (h0 ++ [getitem_mask d (map positive (rows d))]) ++ [clean_of d]).
Proof.
  intros Hsv Hp Hnum h0.
  destruct (filter_derive_ok d Hsv Hp Hnum) as [Hm [Hr _]].
  unfold exec_filter_derive, alloc. subst h0.
  rewrite deref_last. cbn [bind]. rewrite Hm. cbn [bind].
  rewrite deref_last. cbn [bind].
  rewrite deref_last. cbn [bind]. rewrite Hr. cbn [bind].
  rewrite update_last.
  rewrite length_app. cbn [length]. rewrite Nat.add_1_r.
  unfold clean_of, setitem, getitem_mask. cbn [columns rows].
  rewrite select_map, zip_set_map. reflexivity.
Qed.

(** C8: filter/derive is a function of the normalized table, leaves every
    object already in the store (the input table among them) unchanged, and
    keeps the surviving rows in their input order: the clean records are the
    rows that pass the filter, in order, each with its revenue added. *)
Theorem filter_derive_preserves_order
  (parse_float : string -> option num) (raw : DataFrame) (h : store) :
  exists d c,
    normalize parse_float raw = Ok d /\
    filter_derive d = Ok c /\
    (forall c', filter_derive d = Ok c' -> c' = c) /\
    rows c = map with_revenue (filter positive (rows d)) /\
    subseq (filter positive (rows d)) (rows d) /\
    let h0 := h ++ [d] in
    let df_ref := length h in
    exists df_clean_ref h',
      exec_filter_derive h0 df_ref = Ok (df_clean_ref, h') /\
      deref h' df_clean_ref = Ok c /\
      df_clean_ref <> df_ref /\
      deref h' df_ref = Ok d /\
      firstn (length h0) h' = h0.
Proof.
  destruct (normalize_shape parse_float raw) as [e [He Hn]].
  set (d := normalized_of parse_float e) in *.
  assert (Hx : has_expected d) by now apply has_expected_normalized.
  exists d, (clean_of d).
  assert (Hfd : filter_derive d = Ok (clean_of d))
    by now apply filter_derive_normalized.
  split; [exact Hn |]. split; [exact Hfd |].
  split; [intros c' Hc'; congruence |].
  split; [reflexivity |]. split; [apply filter_subseq |].
  intros h0 df_ref. eexists _, _. split.
  { apply exec_filter_derive_ok.
    - apply Hx; simpl; tauto.
    - apply Hx; simpl; tauto.
    - apply normalized_numeric_row. }
  fold h0. split.
  { replace (S (length h0)) with (length (h0 ++ [getitem_mask d (map positive (rows d))])).
    - apply deref_last.
    - rewrite length_app. cbn [length]. lia. }
  split.
  { subst h0 df_ref. rewrite length_app. cbn [length]. lia. }
  split.
  { do 2 apply deref_app. apply deref_last. }
  rewrite <- app_assoc. apply firstn_length_app.
Qed.

(** ** Order on numbers *)

Lemma Qltb_false (a b : Q) : Num.Qltb b a = false <-> (a <= b)%Q.
Proof.
  unfold Num.Qltb. destruct (Qcompare_spec b a) as [H | H | H]; split; intros H';
    try reflexivity; try discriminate.
  - rewrite H. apply Qle_refl.
  - exfalso. now apply (Qlt_not_le b a).
  - now apply Qlt_le_weak.
Qed.

Lemma Qltb_true (a b : Q) : Num.Qltb a b = true <-> (a < b)%Q.
Proof.
  unfold Num.Qltb. rewrite Qlt_alt. destruct (a ?= b)%Q; split; congruence.
Qed.

Lemma leb_trans (x y z : num) :
  leb x y = true -> leb y z = true -> leb x z = true.
Proof.
  destruct x as [| | a |], y as [| | b |], z as [| | c |]; simpl;
    try reflexivity; try discriminate.
  rewrite !negb_true_iff, !Qltb_false. apply Qle_trans.
Qed.

Lemma leb_total (x y : num) :
  isnan x = false -> isnan y = false -> leb x y = true \/ leb y x = true.
Proof.
  destruct x as [| | a |], y as [| | b |]; simpl; intros Hx Hy;
    try discriminate; auto.
  rewrite !negb_true_iff, !Qltb_false.
  destruct (Qlt_le_dec a b) as [H | H]; [left; now apply Qlt_le_weak | now right].
Qed.

Lemma before_total (x y : num) : before x y = false -> before y x = true.
Proof.
  unfold before, notnan.
  destruct (isnan x) eqn:Ex, (isnan y) eqn:Ey; simpl; try discriminate; auto.
  intros H. destruct (leb_total x y Ex Ey) as [H' | H']; congruence.
Qed.

Lemma before_notnan (x y : num) :
  isnan y = false -> before x y = true -> leb y x = true.
Proof.
  unfold before. intros ->. simpl. intros H. now apply andb_prop in H.
Qed.

Lemma pos_notnan (x : num) : ltb zero x = true -> isnan x = false.
Proof. destruct x; simpl; congruence. Qed.

Lemma add_zero_pos (v : num) : ltb zero v = true -> ltb zero (add zero v) = true.
Proof.
  destruct v as [| | a |]; simpl; try congruence.
  rewrite !Qltb_true. intros H. now rewrite Qplus_0_l.
Qed.

Lemma add_pos (s v : num) :
  ltb zero s = true -> ltb zero v = true -> ltb zero (add s v) = true.
Proof.
  destruct s as [| | a |], v as [| | b |]; simpl; try congruence.
  rewrite !Qltb_true. intros Ha Hb.
  apply Qlt_trans with (0 + b)%Q.
  - now rewrite Qplus_0_l.
  - apply Qplus_lt_le_compat; [assumption | apply Qle_refl].
Qed.

(** ** Descending sort *)

Lemma insert_desc_hd (kr h : num * Row) (l : list (num * Row)) :
  HdRel key_before h l -> before (fst kr) (fst h) = false ->
  HdRel key_before h (insert_desc kr l).
Proof.
  intros Hl Hb. destruct l as [| x l]; simpl.
  - constructor. now apply before_total.
  - destruct (before (fst kr) (fst x)).
    + constructor. now apply before_total.
    + constructor. now inversion Hl.
Qed.

Lemma insert_desc_sorted (kr : num * Row) (l : list (num * Row)) :
  Sorted key_before l -> Sorted key_before (insert_desc kr l).
Proof.
  induction 1 as [| h l Hs IH Hh]; simpl.
  - repeat constructor.
  - destruct (before (fst kr) (fst h)) eqn:E.
    + constructor; [now constructor | now constructor].
    + constructor; [assumption | now apply insert_desc_hd].
Qed.

Lemma sort_desc_sorted (l : list (num * Row)) : Sorted key_before (sort_desc l).
Proof.
  induction l as [| kr l IH]; simpl; [constructor | now apply insert_desc_sorted].
Qed.

Lemma insert_desc_In (kr x : num * Row) (l : list (num * Row)) :
  In x (insert_desc kr l) <-> x = kr \/ In x l.
Proof.
  induction l as [| h l IH]; simpl.
  - intuition.
  - destruct (before (fst kr) (fst h)); simpl; [intuition |].
    rewrite IH. intuition.
Qed.

Lemma sort_desc_In (x : num * Row) (l : list (num * Row)) :
  In x (sort_desc l) <-> In x l.
Proof.
  induction l as [| kr l IH]; simpl; [tauto |].
  rewrite insert_desc_In, IH. intuition.
Qed.

Lemma insert_desc_length (kr : num * Row) (l : list (num * Row)) :
  length (insert_desc kr l) = S (length l).
Proof.
  induction l as [| h l IH]; simpl; [reflexivity |].
  destruct (before (fst kr) (fst h)); simpl; [reflexivity | now rewrite IH].
Qed.

Lemma sort_desc_length (l : list (num * Row)) : length (sort_desc l) = length l.
Proof.
  induction l as [| kr l IH]; simpl; [reflexivity |].
  now rewrite insert_desc_length, IH.
Qed.

Lemma Sorted_map {A B : Type} (R : A -> A -> Prop) (S' : B -> B -> Prop)
  (f : A -> B) (l : list A) :
  (forall a b, In a l -> In b l -> R a b -> S' (f a) (f b)) ->
  Sorted R l -> Sorted S' (map f l).
Proof.
  intros H Hs. induction Hs as [| a l Hs IH Hh]; simpl; [constructor |].
  constructor.
  - apply IH. intros x y Hx Hy. apply H; now right.
  - destruct Hh as [| b l Hab]; simpl; constructor.
    apply H; simpl; auto.
Qed.

(** Sorting rows that carry their own Sales Volume as the key leaves them
    in descending order, NaN last. *)
Lemma sort_desc_rows (l : list (num * Row)) :
  (forall kr, In kr l -> sales (snd kr) = fst kr) ->
  Sorted (fun r1 r2 => before (sales r1) (sales r2) = true)
         (map snd (sort_desc l)).
Proof.
  intros H. apply Sorted_map with (R := key_before); [| apply sort_desc_sorted].
  intros a b Ha Hb Hab.
  apply (proj1 (sort_desc_In _ _)) in Ha. apply (proj1 (sort_desc_In _ _)) in Hb.
  rewrite (H a Ha), (H b Hb). exact Hab.
Qed.

Lemma sorted_nan_last_desc (t : DataFrame) :
  (forall r, In r (rows t) -> isnan (sales r) = false) ->
  sorted_nan_last t -> sorted_desc t.
Proof.
  unfold sorted_nan_last, sorted_desc. intros Hn Hs.
  induction Hs as [| r l Hs IH Hh]; [constructor |].
  assert (IH' := IH (fun r' Hr' => Hn r' (or_intror Hr'))).
  constructor; [assumption |].
  destruct Hh as [| r' l Hb]; [constructor |].
  assert (Hle : leb (sales r') (sales r) = true).
  { apply before_notnan; [apply Hn; simpl; auto | assumption]. }
  constructor; [assumption |].
  inversion IH' as [| ? ? _ Hall]; subst.
  eapply Forall_impl; [| exact Hall].
  intros r'' H''. simpl in H''. now apply leb_trans with (sales r').
Qed.

(** ** Grouped sums *)

Lemma sales_group_row (col : string) (kv : cell * num) :
  cell_at (group_row col kv) "Sales Volume" = CNum (snd kv) /\
  sales (group_row col kv) = snd kv.
Proof.
  unfold sales, num_at, group_row. now rewrite cell_at_row_set_same.
Qed.

Lemma key_group_row (col : string) (kv : cell * num) :
  col <> "Sales Volume" -> cell_at (group_row col kv) col = fst kv.
Proof.
  intros H. unfold group_row.
  rewrite cell_at_row_set_other by congruence.
  simpl. now rewrite String.eqb_refl.
Qed.

Lemma has_column_group_table (col : string) (groups : list (cell * num)) :
  has_column (group_table col groups) "Sales Volume" = true /\
  has_column (group_table col groups) col = true.
Proof.
  unfold has_column, group_table. cbn [columns].
  destruct (String.eqb col "Sales Volume") eqn:E; cbn [existsb].
  - apply String.eqb_eq in E. subst col. now rewrite String.eqb_refl.
  - rewrite !String.eqb_refl. rewrite orb_true_r. auto.
Qed.

Lemma combine_map {A B C : Type} (f : A -> B) (h : A -> C) (l : list A) :
  combine (map f l) (map h l) = map (fun a => (f a, h a)) l.
Proof.
  induction l as [| a l IH]; simpl; [reflexivity | now rewrite IH].
Qed.

Lemma sort_group_table (col : string) (groups : list (cell * num)) :
  sort_values_desc (group_table col groups) "Sales Volume" =
  Ok (sorted_groups col groups).
Proof.
  unfold sort_values_desc, getitem.
  rewrite (proj1 (has_column_group_table col groups)). cbn [bind].
  unfold group_table at 1. cbn [rows]. rewrite map_map.
  rewrite (mapM_ok _ (fun v => match v with CNum x => x | CStr _ => NaN end)).
  - cbn [bind]. rewrite map_map. unfold sorted_groups. do 2 f_equal.
    unfold group_table. cbn [rows].
    rewrite <- (combine_map (fun kv => snd kv) (group_row col)).
    do 3 f_equal. apply map_ext. intros kv.
    now rewrite (proj1 (sales_group_row col kv)).
  - intros v Hv. apply in_map_iff in Hv. destruct Hv as [kv [<- _]].
    now rewrite (proj1 (sales_group_row col kv)).
Qed.

Lemma sorted_groups_nan_last (col : string) (groups : list (cell * num)) :
  sorted_nan_last (sorted_groups col groups).
Proof.
  unfold sorted_nan_last, sorted_groups. cbn [rows].
  apply sort_desc_rows. intros kr Hkr. apply in_map_iff in Hkr.
  destruct Hkr as [kv [<- _]]. cbn [fst snd]. apply sales_group_row.
Qed.

Lemma sorted_groups_rows (col : string) (groups : list (cell * num)) (r : Row) :
  In r (rows (sorted_groups col groups)) <->
  exists kv, In kv groups /\ r = group_row col kv.
Proof.
  unfold sorted_groups. cbn [rows]. rewrite in_map_iff. split.
  - intros [kr [<- Hkr]]. apply (proj1 (sort_desc_In _ _)) in Hkr.
    apply in_map_iff in Hkr. destruct Hkr as [kv [<- Hkv]]. now exists kv.
  - intros [kv [Hkv ->]]. exists (snd kv, group_row col kv). split; [reflexivity |].
    apply sort_desc_In. apply in_map_iff. now exists kv.
Qed.

Lemma sorted_groups_length (col : string) (groups : list (cell * num)) :
  length (rows (sorted_groups col groups)) = length groups.
Proof.
  unfold sorted_groups. cbn [rows].
  now rewrite length_map, sort_desc_length, length_map.
Qed.

(** What [groupby_sum] and [g] return when they return. *)
Lemma groupby_sum_inv (t : DataFrame) (col : string) (a : DataFrame) :
  groupby_sum t col = Ok a ->
  has_column t col = true /\
  has_column t "Sales Volume" = true /\
  exists xs, mapM num_of_cell (column t "Sales Volume") = Ok xs /\
             a = group_table col (group_sums (column t col) xs).
Proof.
  unfold groupby_sum, getitem.
  destruct (has_column t col); [| discriminate]. cbn [bind].
  destruct (has_column t "Sales Volume"); [| discriminate]. cbn [bind].
  fold (column t "Sales Volume"). fold (column t col).
  destruct (mapM num_of_cell (column t "Sales Volume")) as [xs | e];
    [| discriminate].
  cbn [bind]. intros H. injection H as <-. repeat split. now exists xs.
Qed.

Lemma g_inv (t : DataFrame) (col : string) (a : DataFrame) :
  g t col = Ok a ->
  (a = DataFrame_new /\ (has_column t col = false \/ empty t = true)) \/
  (has_column t col = true /\ has_column t "Sales Volume" = true /\
   empty t = false /\
   exists xs, mapM num_of_cell (column t "Sales Volume") = Ok xs /\
              a = sorted_groups col (group_sums (column t col) xs)).
Proof.
  unfold g. destruct (has_column t col) eqn:Hc; cbn [negb orb].
  - destruct (empty t) eqn:He.
    + intros H. injection H as <-. left. auto.
    + destruct (groupby_sum t col) as [gt | e] eqn:Hg; [| discriminate].
      cbn [bind]. apply groupby_sum_inv in Hg.
      destruct Hg as [_ [Hsv [xs [Hxs ->]]]].
      rewrite sort_group_table. intros H. injection H as <-.
      right. repeat split; try assumption. now exists xs.
  - intros H. injection H as <-. left. auto.
Qed.

Lemma g_sorted_nan_last (t : DataFrame) (col : string) (a : DataFrame) :
  g t col = Ok a -> sorted_nan_last a.
Proof.
  intros H. apply g_inv in H. destruct H as [[-> _] | [_ [_ [_ [xs [_ ->]]]]]].
  - constructor.
  - apply sorted_groups_nan_last.
Qed.

(** Sums of positive values are positive, so none of them is NaN. *)
Lemma upsert_pos (k : cell) (v : num) (acc : list (cell * num)) :
  ltb zero v = true ->
  Forall (fun kv => ltb zero (snd kv) = true) acc ->
  Forall (fun kv => ltb zero (snd kv) = true) (upsert k v acc).
Proof.
  intros Hv. assert (Hn := pos_notnan v Hv).
  induction 1 as [| [k' s] acc Hs Hacc IH]; simpl.
  - constructor; [| constructor]. unfold add_skipna. rewrite Hn.
    now apply add_zero_pos.
  - simpl in Hs. destruct (cell_compare k k').
    + constructor; [| assumption]. unfold add_skipna. rewrite Hn.
      now apply add_pos.
    + constructor; [| now constructor]. unfold add_skipna. rewrite Hn.
      now apply add_zero_pos.
    + now constructor.
Qed.

Lemma group_fold_pos (l acc : list (cell * num)) :
  Forall (fun kv => ltb zero (snd kv) = true) l ->
  Forall (fun kv => ltb zero (snd kv) = true) acc ->
  Forall (fun kv => ltb zero (snd kv) = true) (fold_left group_step l acc).
Proof.
  revert acc. induction l as [| kv l IH]; simpl; intros acc Hl Hacc; [assumption |].
  inversion Hl; subst. apply IH; [assumption |].
  unfold group_step. destruct (isna (fst kv)); [assumption |].
  now apply upsert_pos.
Qed.

Lemma group_sums_pos (keys : Series) (vals : list num) :
  Forall (fun v => ltb zero v = true) vals ->
  Forall (fun kv => ltb zero (snd kv) = true) (group_sums keys vals).
Proof.
  intros H. apply group_fold_pos; [| constructor].
  apply Forall_forall. intros [k v] Hkv. apply in_combine_r in Hkv.
  rewrite Forall_forall in H. now apply H.
Qed.

Lemma positive_sales_nums (t : DataFrame) :
  positive_sales t ->
  mapM num_of_cell (column t "Sales Volume") = Ok (map sales (rows t)) /\
  Forall (fun v => ltb zero v = true) (map sales (rows t)).
Proof.
  intros [_ H]. split.
  - unfold column.
    rewrite (mapM_ok _ (fun v => match v with CNum x => x | CStr _ => NaN end)).
    + now rewrite map_map.
    + intros v Hv. apply in_map_iff in Hv. destruct Hv as [r [<- Hr]].
      destruct (H r Hr) as [x [-> _]]. reflexivity.
  - apply Forall_forall. intros v Hv. apply in_map_iff in Hv.
    destruct Hv as [r [<- Hr]]. destruct (H r Hr) as [x [Ex Hx]].
    unfold sales, num_at. now rewrite Ex.
Qed.

(** On a table with positive Sales Volume [g] returns for every key column,
    and what it returns is sorted non-increasing. *)
Lemma g_positive_sales (t : DataFrame) (col : string) :
  positive_sales t ->
  exists a, g t col = Ok a /\ sorted_desc a /\
            (forall r, In r (rows a) -> ltb zero (sales r) = true).
Proof.
  intros Hpos. destruct (positive_sales_nums t Hpos) as [Hxs Hall].
  assert (Hrows : forall groups r,
             Forall (fun kv => ltb zero (snd kv) = true) groups ->
             In r (rows (sorted_groups col groups)) -> ltb zero (sales r) = true).
  { intros groups r Hg Hr. apply sorted_groups_rows in Hr.
    destruct Hr as [kv [Hkv ->]]. rewrite (proj2 (sales_group_row col kv)).
    rewrite Forall_forall in Hg. now apply Hg. }
  unfold g. destruct (negb (has_column t col) || empty t) eqn:E.
  - exists DataFrame_new. split; [reflexivity |]. split; [constructor |].
    intros r [].
  - apply orb_false_elim in E. destruct E as [Hc _].
    apply negb_false_iff in Hc.
    unfold groupby_sum, getitem. rewrite Hc, (proj1 Hpos). cbn [bind].
    fold (column t "Sales Volume"). rewrite Hxs. cbn [bind].
    rewrite sort_group_table. eexists. split; [reflexivity |].
    assert (Hg := group_sums_pos (map (fun r => cell_at r col) (rows t)) _ Hall).
    split.
    + apply sorted_nan_last_desc; [| apply sorted_groups_nan_last].
      intros r Hr. apply pos_notnan. now apply (Hrows _ r Hg).
    + intros r Hr. now apply (Hrows _ r Hg).
Qed.

(** ** Clean records *)

Lemma has_column_clean_of (d : DataFrame) (c : string) :
  has_column d c = true -> has_column (clean_of d) c = true.
Proof.
  intros H. apply has_column_In. unfold clean_of. cbn [columns].
  apply has_column_In in H.
  destruct (has_column d "Revenue"); [assumption |]. apply in_or_app. now left.
Qed.

Lemma has_column_clean_of_revenue (d : DataFrame) :
  has_column (clean_of d) "Revenue" = true.
Proof.
  apply has_column_In. unfold clean_of. cbn [columns].
  destruct (has_column d "Revenue") eqn:E.
  - now apply has_column_In.
  - apply in_or_app. right. now left.
Qed.

Lemma clean_row_cells (d : DataFrame) (r : Row) :
  (forall r0, In r0 (rows d) -> numeric_row r0) ->
  In r (rows (clean_of d)) ->
  exists r0 x y,
    In r0 (rows d) /\ positive r0 = true /\
    r = row_set r0 "Revenue" (CNum (mul x y)) /\
    cell_at r "Sales Volume" = CNum x /\ ltb zero x = true /\
    cell_at r "price" = CNum y /\ ltb zero y = true /\
    cell_at r "Revenue" = CNum (mul x y).
Proof.
  intros Hnum Hr. unfold clean_of in Hr. cbn [rows] in Hr.
  apply in_map_iff in Hr. destruct Hr as [r0 [<- Hr0]].
  apply filter_In in Hr0. destruct Hr0 as [Hin Hpos].
  destruct (positive_numeric r0 (Hnum r0 Hin) Hpos)
    as [x [y [Ex [Hx [Ey [Hy Hrev]]]]]].
  exists r0, x, y. rewrite Hrev.
  split; [assumption |]. split; [assumption |]. split; [reflexivity |].
  rewrite !cell_at_row_set_other by discriminate.
  rewrite cell_at_row_set_same. auto 10.
Qed.

Lemma clean_of_positive_sales (d : DataFrame) :
  has_column d "Sales Volume" = true ->
  (forall r0, In r0 (rows d) -> numeric_row r0) ->
  positive_sales (clean_of d).
Proof.
  intros Hsv Hnum. split; [now apply has_column_clean_of |].
  intros r Hr. destruct (clean_row_cells d r Hnum Hr)
    as [r0 [x [y [_ [_ [_ [Ex [Hx _]]]]]]]].
  now exists x.
Qed.

Lemma series_sum_ok (t : DataFrame) (c : string) :
  (forall r, In r (rows t) -> exists x, cell_at r c = CNum x) ->
  series_sum (column t c) = Ok (column_sum t c) /\
  series_mean (column t c) = Ok (column_mean t c).
Proof.
  intros H.
  assert (E : mapM num_of_cell (column t c) = Ok (map (fun r => num_at r c) (rows t))).
  { unfold column.
    rewrite (mapM_ok _ (fun v => match v with CNum x => x | CStr _ => NaN end)).
    - now rewrite map_map.
    - intros v Hv. apply in_map_iff in Hv. destruct Hv as [r [<- Hr]].
      destruct (H r Hr) as [x ->]. reflexivity. }
  unfold series_sum, series_mean. rewrite E. split; reflexivity.
Qed.

Lemma getitem_column (t : DataFrame) (c : string) :
  has_column t c = true -> getitem t c = Ok (column t c).
Proof. intros H. unfold getitem. now rewrite H. Qed.

Lemma topN_positive_sales (t : DataFrame) (n : nat) :
  positive_sales t -> has_column t "name" = true ->
  topN t n =
  Ok (head n (sorted_groups "name" (group_sums (column t "name") (map sales (rows t))))).
Proof.
  intros Hpos Hname. destruct (positive_sales_nums t Hpos) as [Hxs _].
  unfold topN, groupby_sum. rewrite (getitem_column t "name" Hname).
  rewrite (getitem_column t "Sales Volume" (proj1 Hpos)). cbn [bind].
  rewrite Hxs. cbn [bind]. rewrite sort_group_table. reflexivity.
Qed.

Section StartupFacts.

Variable parse_float : string -> option num.

Lemma clean_normalized_positive_sales (e : DataFrame) :
  has_expected e -> positive_sales (clean_of (normalized_of parse_float e)).
Proof.
  intros He. apply clean_of_positive_sales.
  - apply (has_expected_normalized parse_float e He). simpl; tauto.
  - apply normalized_numeric_row.
Qed.

Lemma clean_normalized_has_column (e : DataFrame) (c : string) :
  has_expected e -> In c expected_cols ->
  has_column (clean_of (normalized_of parse_float e)) c = true.
Proof.
  intros He Hc. apply has_column_clean_of.
  now apply (has_expected_normalized parse_float e He).
Qed.

(** Importing the module never raises; these are the globals it binds. *)
Lemma startup_ok (csv : option DataFrame) :
  exists e bp pr bs bm bo,
    has_expected e /\
    let d := normalized_of parse_float e in
    let c := clean_of d in
    normalize parse_float (load csv) = Ok d /\
    filter_derive d = Ok c /\
    g c "Product Position" = Ok bp /\
    g c "Promotion" = Ok pr /\
    g c "season" = Ok bs /\
    g c "material" = Ok bm /\
    g c "origin" = Ok bo /\
    startup parse_float csv =
    Ok (mkDashboard d c
          (column_sum c "Revenue") (column_sum c "Sales Volume")
          (column_mean c "price") (nunique (column c "Product ID"))
          bp pr bs bm bo
          (head 10 (sorted_groups "name"
                      (group_sums (column c "name") (map sales (rows c)))))).
Proof.
  destruct (normalize_shape parse_float (load csv)) as [e [He Hn]].
  set (d := normalized_of parse_float e) in *.
  set (c := clean_of d).
  assert (Hpos : positive_sales c) by now apply clean_normalized_positive_sales.
  assert (Hcol : forall k, In k expected_cols -> has_column c k = true)
    by (intros k Hk; now apply clean_normalized_has_column).
  assert (Hcells : forall r, In r (rows c) ->
            (exists x, cell_at r "Revenue" = CNum x) /\
            (exists x, cell_at r "Sales Volume" = CNum x) /\
            (exists x, cell_at r "price" = CNum x)).
  { intros r Hr.
    destruct (clean_row_cells d r (normalized_numeric_row parse_float e) Hr)
      as [r0 [x [y [_ [_ [_ [Ex [_ [Ey [_ Erev]]]]]]]]]].
    repeat split; eexists; eassumption. }
  destruct (g_positive_sales c "Product Position" Hpos) as [bp [Hbp _]].
  destruct (g_positive_sales c "Promotion" Hpos) as [pr [Hpr _]].
  destruct (g_positive_sales c "season" Hpos) as [bs [Hbs _]].
  destruct (g_positive_sales c "material" Hpos) as [bm [Hbm _]].
  destruct (g_positive_sales c "origin" Hpos) as [bo [Hbo _]].
  exists e, bp, pr, bs, bm, bo. split; [assumption |].
  fold d. fold c. cbv zeta.
  assert (Hfd : filter_derive d = Ok c) by now apply filter_derive_normalized.
  repeat (split; [assumption |]).
  unfold startup. rewrite Hn. cbn [bind]. rewrite Hfd. cbn [bind].
  rewrite (getitem_column c "Revenue") by apply has_column_clean_of_revenue.
  cbn [bind].
  rewrite (proj1 (series_sum_ok c "Revenue" (fun r Hr => proj1 (Hcells r Hr)))).
  cbn [bind].
  rewrite (getitem_column c "Sales Volume") by (apply Hcol; simpl; tauto).
  cbn [bind].
  rewrite (proj1 (series_sum_ok c "Sales Volume"
                    (fun r Hr => proj1 (proj2 (Hcells r Hr))))).
  cbn [bind].
  rewrite (getitem_column c "price") by (apply Hcol; simpl; tauto).
  cbn [bind].
  rewrite (proj2 (series_sum_ok c "price"
                    (fun r Hr => proj2 (proj2 (Hcells r Hr))))).
  cbn [bind].
  rewrite (getitem_column c "Product ID") by (apply Hcol; simpl; tauto).
  cbn [bind].
  rewrite Hbp, Hpr, Hbs, Hbm, Hbo. cbn [bind].
  rewrite topN_positive_sales by (try assumption; apply Hcol; simpl; tauto).
  reflexivity.
Qed.

End StartupFacts.

(** ** KPIs *)

Lemma kpis_of_no_rows (c : DataFrame) :
  rows c = [] ->
  column_sum c "Revenue" = zero /\
  column_sum c "Sales Volume" = zero /\
  column_mean c "price" = NaN /\
  nunique (column c "Product ID") = 0%nat.
Proof.
  intros H. unfold column_sum, column_mean, nunique, column. rewrite H.
  repeat split.
Qed.

(** Whenever no record passes the filter, three KPIs are zero and the
    average price is NaN. *)
Lemma kpis_of_empty_clean (parse_float : string -> option num)
  (csv : option DataFrame) (m : Dashboard) :
  startup parse_float csv = Ok m ->
  rows (df_clean m) = [] ->
  total_revenue m = zero /\ total_units m = zero /\
  unique_products m = 0%nat /\ avg_price m = NaN.
Proof.
  destruct (startup_ok parse_float csv)
    as [e [bp [pr [bs [bm [bo [_ [_ [_ [_ [_ [_ [_ [_ ->]]]]]]]]]]]]]].
  intros H. injection H as <-. cbn [df_clean total_revenue total_units
    unique_products avg_price]. intros Hc.
  destruct (kpis_of_no_rows _ Hc) as [H1 [H2 [H3 H4]]]. auto.
Qed.

(** C1: with the data file absent (the table the loader then builds has no
    rows, so there are no clean records) the module binds total revenue 0,
    total units 0 and unique products 0, but the average price is NaN, not
    0: [mean] over no values divides 0 by 0. *)
Theorem avg_price_of_no_records_is_nan (parse_float : string -> option num) :
  exists m,
    startup parse_float None = Ok m /\
    rows (df_clean m) = [] /\
    total_revenue m = zero /\
    total_units m = zero /\
    unique_products m = 0%nat /\
    avg_price m = NaN /\
    avg_price m <> zero.
Proof.
  eexists. split; [vm_compute; reflexivity |].
  cbn [df_clean total_revenue total_units unique_products avg_price rows].
  repeat split. discriminate.
Qed.

(** ** Routing *)

(** C5: page selection is total.  Every path selects one of the four pages,
    and every path other than the three literals, the root path and the
    empty string among them, selects the overview. *)
Theorem change_page_total (path : string) :
  In (change_page path) [overview; details; advanced; insights] /\
  (In path ["/details"; "/advanced"; "/insights"] \/ change_page path = overview) /\
  change_page "/" = overview /\
  change_page "" = overview.
Proof.
  unfold change_page.
  destruct (String.eqb path "/details") eqn:E1.
  { apply String.eqb_eq in E1. subst. simpl. tauto. }
  destruct (String.eqb path "/advanced") eqn:E2.
  { apply String.eqb_eq in E2. subst. simpl. tauto. }
  destruct (String.eqb path "/insights") eqn:E3.
  { apply String.eqb_eq in E3. subst. simpl. tauto. }
  simpl. tauto.
Qed.

(** ** Insights *)

Lemma nonempty_app (c : ascii) (pre s : string) :
  String.eqb (String c pre ++ s) "" = false.
Proof. reflexivity. Qed.

Lemma first_row_of_g (t : DataFrame) (col : string) (a : DataFrame) :
  g t col = Ok a -> empty a = false ->
  has_column a col = true /\ exists r rest, rows a = r :: rest.
Proof.
  intros H He. apply g_inv in H.
  destruct H as [[-> _] | [_ [_ [_ [xs [_ ->]]]]]]; [discriminate |].
  split.
  - apply has_column_In. unfold sorted_groups. cbn [columns].
    apply has_column_In. apply has_column_group_table.
  - unfold empty in He.
    destruct (rows (sorted_groups col (group_sums (column t col) xs))) as [| r rs].
    + destruct (columns (sorted_groups col (group_sums (column t col) xs)));
        discriminate.
    + eauto.
Qed.

Lemma leb_refl (x : num) : isnan x = false -> leb x x = true.
Proof.
  intros H. destruct (leb_total x x H H); assumption.
Qed.

Lemma insight_of_g (str_num : DataFrame -> num -> string) (c0 : ascii)
  (pre post : string) (t : DataFrame) (col : string) (a : DataFrame) :
  positive_sales t ->
  g t col = Ok a ->
  exists s items,
    insight str_num (String c0 pre) post a col = Ok s /\
    filter (fun i => negb (String.eqb i "")) [s] = items /\
    contributes str_num (String c0 pre) post a col items.
Proof.
  intros Hpos H. unfold insight, contributes.
  destruct (empty a) eqn:He; cbn [negb].
  - exists ""%string, []. repeat split.
  - destruct (first_row_of_g t col a H He) as [Hc [r [rest Er]]].
    destruct (g_positive_sales t col Hpos) as [a' [Ha' [Hs Hrows]]].
    rewrite H in Ha'. injection Ha' as <-.
    unfold top_text, first_row. rewrite Er, Hc. cbn [bind].
    eexists _, _. split; [reflexivity |]. split.
    + cbn [filter]. rewrite nonempty_app. reflexivity.
    + exists r. rewrite Er in *. split; [now left |]. split; [| reflexivity].
      unfold sorted_desc in Hs. rewrite Er in Hs.
      inversion Hs as [| ? ? _ Hall]; subst.
      intros r' [<- | Hr'].
      * apply leb_refl, pos_notnan, Hrows. now left.
      * rewrite Forall_forall in Hall. now apply Hall.
Qed.

(** C9: each of the three data-derived sentences is in the insights list
    exactly when its aggregate table is not empty.  The three tables are
    what [g] returns for the clean records, sorted non-increasing, and the
    list is the contribution of the position table, then of the season
    table, then of the origin table: no entry for an empty table, and
    otherwise the one sentence that names the key (a str key word for
    word) of a row of the table with the largest Sales Volume, as the first
    row after the descending sort is. *)
Theorem insights_follow_tables
  (parse_float : string -> option num) (str_num : DataFrame -> num -> string)
  (csv : option DataFrame) :
  exists m i1 i2 i3,
    startup parse_float csv = Ok m /\
    g (df_clean m) "Product Position" = Ok (by_position m) /\
    g (df_clean m) "season" = Ok (by_season m) /\
    g (df_clean m) "origin" = Ok (by_origin m) /\
    sorted_desc (by_position m) /\
    sorted_desc (by_season m) /\
    sorted_desc (by_origin m) /\
    page_insights str_num m = Ok (i1 ++ i2 ++ i3, recs) /\
    contributes str_num "Most sales come from the '" "' position."
      (by_position m) "Product Position" i1 /\
    contributes str_num "Top season: " "" (by_season m) "season" i2 /\
    contributes str_num "Strongest region: " "" (by_origin m) "origin" i3.
Proof.
  destruct (startup_ok parse_float csv)
    as [e [bp [pr [bs [bm [bo [He [_ [_ [Hbp [_ [Hbs [_ [Hbo Hm]]]]]]]]]]]]]].
  cbv zeta in *.
  set (c := clean_of (normalized_of parse_float e)) in *.
  assert (Hpos : positive_sales c) by now apply clean_normalized_positive_sales.
  assert (Hsorted : forall col a, g c col = Ok a -> sorted_desc a).
  { intros col a Ha. destruct (g_positive_sales c col Hpos) as [a' [Ha' [Hs _]]].
    rewrite Ha in Ha'. now injection Ha' as <-. }
  destruct (insight_of_g str_num "M" "ost sales come from the '" "' position."
              _ _ _ Hpos Hbp) as [s1 [i1 [E1 [F1 C1]]]].
  destruct (insight_of_g str_num "T" "op season: " "" _ _ _ Hpos Hbs)
    as [s2 [i2 [E2 [F2 C2]]]].
  destruct (insight_of_g str_num "S" "trongest region: " "" _ _ _ Hpos Hbo)
    as [s3 [i3 [E3 [F3 C3]]]].
  eexists _, i1, i2, i3. split; [exact Hm |].
  cbn [df_clean by_position by_season by_origin].
  do 3 (split; [assumption |]).
  do 3 (split; [eapply Hsorted; eassumption |]).
  split; [| auto].
  unfold page_insights. cbn [by_position by_season by_origin].
  rewrite E1. cbn [bind]. rewrite E2. cbn [bind]. rewrite E3. cbn [bind].
  do 2 f_equal. subst i1 i2 i3. cbn [filter].
  destruct (negb (String.eqb s1 "")), (negb (String.eqb s2 "")),
    (negb (String.eqb s3 "")); reflexivity.
Qed.

(** ** Missing group keys *)

Lemma group_fold_dropna (l acc : list (cell * num)) :
  fold_left group_step l acc =
  fold_left group_step (filter (fun kv => negb (isna (fst kv))) l) acc.
Proof.
  revert acc. induction l as [| kv l IH]; intros acc; [reflexivity |].
  cbn [fold_left filter]. unfold group_step at 2.
  destruct (isna (fst kv)) eqn:E; cbn [negb].
  - apply IH.
  - cbn [fold_left]. unfold group_step at 3. rewrite E. apply IH.
Qed.

Lemma filter_map_swap {A B : Type} (f : A -> B) (p : B -> bool) (l : list A) :
  filter p (map f l) = map f (filter (fun a => p (f a)) l).
Proof.
  induction l as [| a l IH]; simpl; [reflexivity |].
  destruct (p (f a)); simpl; now rewrite IH.
Qed.

Lemma group_sums_dropna (t : DataFrame) (col c : string) :
  group_sums (column t col) (map (fun r => num_at r c) (rows t)) =
  group_sums (column (dropna t col) col)
             (map (fun r => num_at r c) (rows (dropna t col))).
Proof.
  unfold group_sums, column, dropna. cbn [rows].
  rewrite !combine_map. rewrite group_fold_dropna.
  rewrite filter_map_swap. cbn [fst]. reflexivity.
Qed.

Lemma mapM_num_inv (t : DataFrame) (c : string) (xs : list num) :
  mapM num_of_cell (column t c) = Ok xs ->
  xs = map (fun r => num_at r c) (rows t) /\
  forall r, In r (rows t) -> exists x, cell_at r c = CNum x.
Proof.
  unfold column. revert xs.
  induction (rows t) as [| r rs IH]; cbn [map mapM]; intros xs H.
  - injection H as <-. split; [reflexivity | intros r []].
  - unfold num_at at 1.
    destruct (cell_at r c) as [s | x] eqn:E; cbn [num_of_cell bind] in H;
      [discriminate |].
    destruct (mapM num_of_cell (map (fun r0 => cell_at r0 c) rs)) as [ys | e];
      cbn [bind] in H; [| discriminate].
    injection H as <-. destruct (IH ys eq_refl) as [-> Hall].
    split; [reflexivity |].
    intros r' [<- | Hr']; [eauto | now apply Hall].
Qed.

Lemma mapM_num_dropna (t : DataFrame) (col c : string) (xs : list num) :
  mapM num_of_cell (column t c) = Ok xs ->
  mapM num_of_cell (column (dropna t col) c) =
  Ok (map (fun r => num_at r c) (rows (dropna t col))).
Proof.
  intros H. destruct (mapM_num_inv t c xs H) as [_ Hall].
  unfold column.
  rewrite (mapM_ok _ (fun v => match v with CNum x => x | CStr _ => NaN end)).
  - now rewrite map_map.
  - intros v Hv. apply in_map_iff in Hv. destruct Hv as [r [<- Hr]].
    unfold dropna in Hr. cbn [rows] in Hr. apply filter_In in Hr.
    destruct (Hall r (proj1 Hr)) as [x ->]. reflexivity.
Qed.

Lemma empty_dropna (t : DataFrame) (col : string) :
  empty t = true -> empty (dropna t col) = true.
Proof.
  unfold empty, dropna. cbn [columns rows].
  destruct (columns t); [reflexivity |].
  destruct (rows t); [reflexivity | discriminate].
Qed.

Lemma group_sums_nil_rows (col : string) (vals : list num) :
  rows (sorted_groups col (group_sums [] vals)) = [].
Proof. reflexivity. Qed.

(** [g] does not see the rows whose key is missing: without them it returns
    the same rows. *)
Lemma g_dropna (t : DataFrame) (col : string) (a : DataFrame) :
  g t col = Ok a ->
  exists a', g (dropna t col) col = Ok a' /\ rows a' = rows a.
Proof.
  intros H. apply g_inv in H.
  destruct H as [[-> [Hc | He]] | [Hc [Hsv [He [xs [Hxs ->]]]]]].
  - exists DataFrame_new. split; [| reflexivity].
    unfold g. unfold has_column, dropna in *. cbn [columns]. now rewrite Hc.
  - exists DataFrame_new. split; [| reflexivity].
    unfold g. rewrite (empty_dropna t col He). now rewrite orb_true_r.
  - destruct (mapM_num_inv t "Sales Volume" xs Hxs) as [-> _].
    rewrite group_sums_dropna.
    assert (Hc' : has_column (dropna t col) col = true) by exact Hc.
    unfold g. rewrite Hc'. cbn [negb orb].
    destruct (empty (dropna t col)) eqn:He'.
    + exists DataFrame_new. split; [reflexivity |].
      unfold empty, dropna in He'. cbn [columns rows] in He'.
      unfold empty in He. destruct (columns t); [discriminate |].
      unfold column, dropna. cbn [rows].
      destruct (filter (fun r => negb (isna (cell_at r col))) (rows t));
        [reflexivity | discriminate].
    + eexists. split; [| reflexivity].
      unfold groupby_sum. rewrite (getitem_column _ col Hc').
      rewrite (getitem_column (dropna t col) "Sales Volume" Hsv). cbn [bind].
      rewrite (mapM_num_dropna t col "Sales Volume" _ Hxs). cbn [bind].
      apply sort_group_table.
Qed.

(** ** Order on group keys *)

Lemma num_compare_refl (x : num) : Num.compare x x = Eq.
Proof.
  destruct x as [| | a |]; simpl; try reflexivity.
  apply Qeq_alt. reflexivity.
Qed.

Lemma num_compare_antisym (x y : num) :
  Num.compare x y = CompOpp (Num.compare y x).
Proof.
  destruct x as [| | a |], y as [| | b |]; simpl; try reflexivity.
  symmetry. apply Qcompare_antisym.
Qed.

Lemma num_compare_lt_trans (x y z : num) :
  Num.compare x y = Lt -> Num.compare y z = Lt -> Num.compare x z = Lt.
Proof.
  destruct x as [| | a |], y as [| | b |], z as [| | c |]; simpl;
    try reflexivity; try discriminate.
  rewrite <- !Qlt_alt. apply Qlt_trans.
Qed.

Lemma num_compare_eq_lt (x y z : num) :
  Num.compare x z = Eq -> Num.compare y z = Lt -> Num.compare y x = Lt.
Proof.
  destruct x as [| | a |], y as [| | b |], z as [| | c |]; simpl;
    try reflexivity; try discriminate.
  rewrite <- Qeq_alt, <- !Qlt_alt. intros E H. now rewrite E.
Qed.

Lemma string_compare_refl (s : string) : String.compare s s = Eq.
Proof.
  assert (H := String.compare_antisym s s).
  destruct (String.compare s s); simpl in H; congruence.
Qed.

Lemma cell_compare_refl (a : cell) : cell_compare a a = Eq.
Proof.
  destruct a; simpl; [apply string_compare_refl | apply num_compare_refl].
Qed.

Lemma cell_compare_antisym (a b : cell) :
  cell_compare a b = CompOpp (cell_compare b a).
Proof.
  destruct a, b; simpl; try reflexivity.
  - apply String.compare_antisym.
  - apply num_compare_antisym.
Qed.

Lemma cell_compare_lt_trans (a b c : cell) :
  cell_compare a b = Lt -> cell_compare b c = Lt -> cell_compare a c = Lt.
Proof.
  destruct a as [s | x], b as [t | y], c as [u | z]; simpl;
    try reflexivity; try discriminate.
  - intros H1 H2. apply String_as_OT.cmp_lt.
    apply String_as_OT.lt_trans with t; now apply String_as_OT.cmp_lt.
  - apply num_compare_lt_trans.
Qed.

Lemma cell_compare_eq_lt (a b c : cell) :
  cell_compare a c = Eq -> cell_compare b c = Lt -> cell_compare b a = Lt.
Proof.
  destruct a as [s | x], b as [t | y], c as [u | z]; simpl;
    try reflexivity; try discriminate.
  - intros E. apply String.compare_eq_iff in E. now subst.
  - apply num_compare_eq_lt.
Qed.

Lemma cell_eqb_refl (a : cell) : cell_eqb a a = true.
Proof. unfold cell_eqb. now rewrite cell_compare_refl. Qed.

(** ** One group per distinct key *)

Lemma upsert_keys_from (k : cell) (v : num) (acc : list (cell * num)) (k0 : cell) :
  In k0 (map fst (upsert k v acc)) -> k0 = k \/ In k0 (map fst acc).
Proof.
  induction acc as [| [k' s] acc IH]; simpl.
  - intros [<- | []]. now left.
  - destruct (cell_compare k k'); simpl.
    + intros [<- | H]; auto.
    + intros [<- | [<- | H]]; auto.
    + intros [<- | H]; auto. destruct (IH H); auto.
Qed.

Lemma upsert_sorted (k : cell) (v : num) (acc : list (cell * num)) :
  StronglySorted key_lt acc -> StronglySorted key_lt (upsert k v acc).
Proof.
  induction 1 as [| [k' s] acc Hs IH Hall]; simpl.
  - repeat constructor.
  - destruct (cell_compare k k') eqn:E.
    + constructor; [assumption |]. exact Hall.
    + constructor; [now constructor |].
      constructor; [exact E |].
      eapply Forall_impl; [| exact Hall]. intros kv Hkv.
      unfold key_lt in *. cbn [fst] in *.
      now apply cell_compare_lt_trans with k'.
    + constructor; [assumption |].
      apply Forall_forall. intros [k0 s0] Hin.
      assert (Hk : In k0 (map fst (upsert k v acc)))
        by (apply in_map_iff; now exists (k0, s0)).
      apply upsert_keys_from in Hk. unfold key_lt. cbn [fst].
      destruct Hk as [-> | Hk].
      * rewrite cell_compare_antisym, E. reflexivity.
      * apply in_map_iff in Hk. destruct Hk as [[k1 s1] [Ek Hk1]].
        cbn [fst] in Ek. subst k1. rewrite Forall_forall in Hall.
        apply (Hall _ Hk1).
Qed.

Lemma upsert_member_keys (k : cell) (v : num) (acc : list (cell * num)) :
  StronglySorted key_lt acc ->
  existsb (cell_eqb k) (map fst acc) = true ->
  map fst (upsert k v acc) = map fst acc.
Proof.
  induction 1 as [| [k' s] acc Hs IH Hall]; simpl; [discriminate |].
  unfold cell_eqb at 1. destruct (cell_compare k k') eqn:E; simpl.
  - reflexivity.
  - intros Hex. exfalso. apply existsb_exists in Hex.
    destruct Hex as [k0 [Hin Hk0]]. apply in_map_iff in Hin.
    destruct Hin as [[k1 s1] [Ek Hin]]. cbn [fst] in Ek. subst k1.
    rewrite Forall_forall in Hall. specialize (Hall _ Hin).
    unfold key_lt in Hall. cbn [fst] in Hall.
    unfold cell_eqb in Hk0.
    destruct (cell_compare k k0) eqn:E0; try discriminate.
    assert (H1 := cell_compare_eq_lt k k' k0 E0 Hall).
    rewrite cell_compare_antisym, E in H1. discriminate.
  - intros Hex. now rewrite IH.
Qed.

Lemma upsert_new_keys (k : cell) (v : num) (acc : list (cell * num)) :
  existsb (cell_eqb k) (map fst acc) = false ->
  length (upsert k v acc) = S (length acc) /\
  forall x, existsb (cell_eqb x) (map fst (upsert k v acc)) =
            cell_eqb x k || existsb (cell_eqb x) (map fst acc).
Proof.
  induction acc as [| [k' s] acc IH]; simpl.
  - intros _. split; reflexivity.
  - unfold cell_eqb at 1. destruct (cell_compare k k') eqn:E; simpl;
      try discriminate.
    + intros _. split; reflexivity.
    + intros Hex. destruct (IH Hex) as [Hlen Hmem]. split; [now rewrite Hlen |].
      intros x. rewrite Hmem.
      destruct (cell_eqb x k'), (cell_eqb x k); reflexivity.
Qed.

Lemma group_unique_count (l acc : list (cell * num)) (u : Series) :
  StronglySorted key_lt acc ->
  length acc = length u ->
  (forall x, existsb (cell_eqb x) (map fst acc) = existsb (cell_eqb x) u) ->
  length (fold_left group_step l acc) =
  length (fold_left unique_step (filter (fun c => negb (isna c)) (map fst l)) u).
Proof.
  revert acc u. induction l as [| [k v] l IH]; intros acc u Hs Hlen Hmem;
    [exact Hlen |].
  cbn [fold_left map filter fst]. unfold group_step at 2. cbn [fst snd].
  destruct (isna k); cbn [negb]; [now apply IH |].
  cbn [fold_left]. apply IH.
  - now apply upsert_sorted.
  - unfold unique_step. destruct (existsb (cell_eqb k) u) eqn:E.
    + rewrite <- Hlen. rewrite <- (length_map fst), <- (length_map fst acc).
      f_equal. apply upsert_member_keys; [assumption | now rewrite Hmem].
    + rewrite <- Hmem in E. destruct (upsert_new_keys k v acc E) as [-> _].
      rewrite length_app. cbn [length]. lia.
  - intros x. unfold unique_step. destruct (existsb (cell_eqb k) u) eqn:E.
    + rewrite upsert_member_keys; [apply Hmem | assumption | now rewrite Hmem].
    + rewrite <- Hmem in E. destruct (upsert_new_keys k v acc E) as [_ ->].
      rewrite existsb_app. cbn [existsb]. rewrite Hmem.
      destruct (cell_eqb x k), (existsb (cell_eqb x) u); reflexivity.
Qed.

(** The group table has as many rows as the key column has distinct values
    that are not missing. *)
Lemma group_sums_count (t : DataFrame) (col : string) (h : Row -> num) :
  length (group_sums (column t col) (map h (rows t))) = nunique (column t col).
Proof.
  unfold group_sums, nunique, unique, column. rewrite combine_map.
  rewrite (group_unique_count _ [] []); try reflexivity; [| constructor].
  now rewrite map_map.
Qed.

Lemma group_fold_sorted (l acc : list (cell * num)) :
  StronglySorted key_lt acc -> StronglySorted key_lt (fold_left group_step l acc).
Proof.
  revert acc. induction l as [| kv l IH]; intros acc H; [assumption |].
  cbn [fold_left]. apply IH. unfold group_step.
  destruct (isna (fst kv)); [assumption | now apply upsert_sorted].
Qed.

Lemma upsert_has (k : cell) (v : num) (acc : list (cell * num)) :
  existsb (cell_eqb k) (map fst (upsert k v acc)) = true.
Proof.
  induction acc as [| [k' s] acc IH]; simpl.
  - now rewrite cell_eqb_refl.
  - destruct (cell_compare k k') eqn:E; simpl.
    + unfold cell_eqb at 1. now rewrite E.
    + now rewrite cell_eqb_refl.
    + rewrite IH. apply orb_true_r.
Qed.

Lemma upsert_keeps (x k : cell) (v : num) (acc : list (cell * num)) :
  existsb (cell_eqb x) (map fst acc) = true ->
  existsb (cell_eqb x) (map fst (upsert k v acc)) = true.
Proof.
  induction acc as [| [k' s] acc IH]; simpl; [discriminate |].
  destruct (cell_compare k k'); simpl; intros H.
  - exact H.
  - rewrite H. apply orb_true_r.
  - apply orb_prop in H. destruct H as [-> | H]; [reflexivity |].
    rewrite (IH H). apply orb_true_r.
Qed.

Lemma group_fold_complete (l acc : list (cell * num)) (x : cell) :
  existsb (cell_eqb x) (map fst acc) = true \/
  (In x (map fst l) /\ isna x = false) ->
  existsb (cell_eqb x) (map fst (fold_left group_step l acc)) = true.
Proof.
  revert acc. induction l as [| [k v] l IH]; intros acc H.
  - destruct H as [H | [[] _]]. exact H.
  - cbn [fold_left]. apply IH. unfold group_step. cbn [fst snd].
    destruct H as [H | [[<- | H] Hx]]; cbn [map fst] in *.
    + left. destruct (isna k); [assumption | now apply upsert_keeps].
    + left. rewrite Hx. apply upsert_has.
    + right. auto.
Qed.

Lemma group_fold_sound (l acc : list (cell * num)) (x : cell) :
  In x (map fst (fold_left group_step l acc)) ->
  In x (map fst acc) \/ (In x (map fst l) /\ isna x = false).
Proof.
  revert acc. induction l as [| [k v] l IH]; intros acc H; [now left |].
  cbn [fold_left] in H. apply IH in H. cbn [map fst].
  destruct H as [H | [H Hx]]; [| right; split; [now right | assumption]].
  unfold group_step in H. cbn [fst snd] in H.
  destruct (isna k) eqn:Ek; [now left |].
  apply upsert_keys_from in H. destruct H as [-> | H]; [right | now left].
  split; [now left | assumption].
Qed.

Lemma group_sums_keys (keys : Series) (vals : list num) (kv : cell * num) :
  In kv (group_sums keys vals) -> In (fst kv) keys /\ isna (fst kv) = false.
Proof.
  intros H.
  assert (Hk : In (fst kv) (map fst (group_sums keys vals)))
    by (apply in_map_iff; now exists kv).
  apply group_fold_sound in Hk. destruct Hk as [[] | [Hk Hx]].
  split; [| assumption].
  apply in_map_iff in Hk. destruct Hk as [[k v] [<- Hin]].
  now apply in_combine_l in Hin.
Qed.

Lemma groupby_sum_dropna (t : DataFrame) (col : string) (a : DataFrame) :
  groupby_sum t col = Ok a -> groupby_sum (dropna t col) col = Ok a.
Proof.
  intros H. apply groupby_sum_inv in H. destruct H as [Hc [Hsv [xs [Hxs ->]]]].
  destruct (mapM_num_inv t "Sales Volume" xs Hxs) as [-> _].
  rewrite group_sums_dropna. unfold groupby_sum.
  rewrite (getitem_column (dropna t col) col Hc).
  rewrite (getitem_column (dropna t col) "Sales Volume" Hsv). cbn [bind].
  rewrite (mapM_num_dropna t col "Sales Volume" _ Hxs). reflexivity.
Qed.

(** C10: rows whose grouping key is missing are left out of the aggregate
    tables.  [g] and the top-n table are what they would be without those
    rows and no group has a missing key, so an aggregate table can add up to
    less than the total units: with one of two sales at no recorded
    position the position table sums to 10 and the total units are 15. *)
Theorem missing_keys_are_dropped (parse_float : string -> option num) :
  (forall t col a,
      g t col = Ok a ->
      exists a', g (dropna t col) col = Ok a' /\ rows a' = rows a) /\
  (forall t n a, topN t n = Ok a -> topN (dropna t "name") n = Ok a) /\
  (forall t col a r,
      col <> "Sales Volume" -> g t col = Ok a -> In r (rows a) ->
      isna (cell_at r col) = false) /\
  (exists m s,
      startup parse_float (Some sample_missing_position) = Ok m /\
      series_sum (column (by_position m) "Sales Volume") = Ok s /\
      s = Fin 10 /\ total_units m = Fin 15 /\
      ltb s (total_units m) = true).
Proof.
  split; [exact g_dropna |]. split.
  { intros t n a. unfold topN.
    destruct (groupby_sum t "name") as [gt | e] eqn:E; [| discriminate].
    now rewrite (groupby_sum_dropna t "name" gt E). }
  split.
  { intros t col a r Hcol H Hr. apply g_inv in H.
    destruct H as [[-> _] | [_ [_ [_ [xs [_ ->]]]]]]; [destruct Hr |].
    apply sorted_groups_rows in Hr. destruct Hr as [kv [Hkv ->]].
    rewrite key_group_row by assumption.
    exact (proj2 (group_sums_keys _ _ kv Hkv)). }
  eexists _, _. split; [vm_compute; reflexivity |].
  split; [vm_compute; reflexivity |]. repeat split.
Qed.

(** ** Top n *)

Lemma sorted_groups_desc (col : string) (groups : list (cell * num)) :
  Forall (fun kv => ltb zero (snd kv) = true) groups ->
  sorted_desc (sorted_groups col groups).
Proof.
  intros Hg. apply sorted_nan_last_desc; [| apply sorted_groups_nan_last].
  intros r Hr. apply sorted_groups_rows in Hr. destruct Hr as [kv [Hkv ->]].
  rewrite (proj2 (sales_group_row col kv)). apply pos_notnan.
  rewrite Forall_forall in Hg. now apply Hg.
Qed.

Lemma head_all (n : nat) (t : DataFrame) :
  (length (rows t) <= n)%nat -> head n t = t.
Proof.
  intros H. unfold head. rewrite firstn_all2 by assumption. now destruct t.
Qed.

(** * Further properties *)

(** ** Equal keys *)

Lemma num_compare_eq_l (x y z : num) :
  Num.compare x y = Eq -> Num.compare x z = Num.compare y z.
Proof.
  destruct x as [| | a |], y as [| | b |], z as [| | c |]; simpl;
    try reflexivity; try discriminate.
  rewrite <- Qeq_alt. intros E. now rewrite E.
Qed.

Lemma cell_compare_eq_l (a b c : cell) :
  cell_compare a b = Eq -> cell_compare a c = cell_compare b c.
Proof.
  destruct a as [s | x], b as [t | y]; simpl; try discriminate.
  - intros E. apply String.compare_eq_iff in E. now subst.
  - intros E. destruct c as [u | z]; simpl; [reflexivity |].
    now apply num_compare_eq_l.
Qed.

Lemma cell_eqb_sym (a b : cell) : cell_eqb a b = cell_eqb b a.
Proof.
  unfold cell_eqb. rewrite (cell_compare_antisym a b).
  destruct (cell_compare b a); reflexivity.
Qed.

Lemma cell_eqb_l (a b c : cell) :
  cell_eqb a b = true -> cell_eqb a c = cell_eqb b c.
Proof.
  unfold cell_eqb. destruct (cell_compare a b) eqn:E; try discriminate.
  intros _. now rewrite (cell_compare_eq_l a b c E).
Qed.

Lemma cell_eqb_r (a b c : cell) :
  cell_eqb a b = true -> cell_eqb c a = cell_eqb c b.
Proof.
  intros H. rewrite (cell_eqb_sym c a), (cell_eqb_sym c b). now apply cell_eqb_l.
Qed.

Lemma cell_eqb_lt (a b : cell) : cell_compare a b = Lt -> cell_eqb a b = false.
Proof. unfold cell_eqb. now intros ->. Qed.

Lemma cell_eqb_missing (a b : cell) :
  isna a = true -> isna b = false -> cell_eqb a b = false.
Proof.
  destruct a as [s | x]; simpl; [discriminate |].
  destruct x; try discriminate. intros _.
  destruct b as [t | y]; [reflexivity |].
  destruct y; simpl; try discriminate; reflexivity.
Qed.
(** ** What a group sums *)

Lemma pair_total_snoc (l : list (cell * num)) (p : cell * num) (k : cell) :
  pair_total (l ++ [p]) k =
  if cell_eqb (fst p) k then add_skipna (pair_total l k) (snd p)
  else pair_total l k.
Proof.
  unfold pair_total. rewrite filter_app, map_app, fold_left_app. cbn [filter].
  destruct (cell_eqb (fst p) k); reflexivity.
Qed.

Lemma filter_none {A : Type} (f : A -> bool) (l : list A) :
  (forall x, In x l -> f x = false) -> filter f l = [].
Proof.
  induction l as [| a l IH]; intros H; [reflexivity |].
  cbn [filter]. rewrite (H a) by now left. apply IH.
  intros x Hx. apply H. now right.
Qed.

Lemma below_all_not_member (k : cell) (acc : list (cell * num)) :
  (forall kv, In kv acc -> cell_compare k (fst kv) = Lt) ->
  existsb (cell_eqb k) (map fst acc) = false.
Proof.
  induction acc as [| kv acc IH]; intros H; [reflexivity |].
  cbn [map existsb]. rewrite (cell_eqb_lt k (fst kv)) by (apply H; now left).
  apply IH. intros kv' Hkv'. apply H. now right.
Qed.

Lemma upsert_entries (k : cell) (v : num) (acc : list (cell * num))
  (k' : cell) (s' : num) :
  StronglySorted key_lt acc ->
  In (k', s') (upsert k v acc) ->
  (cell_eqb k k' = false /\ In (k', s') acc) \/
  (cell_eqb k k' = true /\ exists s, In (k', s) acc /\ s' = add_skipna s v) \/
  (k' = k /\ s' = add_skipna zero v /\
   existsb (cell_eqb k) (map fst acc) = false).
Proof.
  induction 1 as [| [k1 s1] acc Hs IH Hall]; cbn [upsert].
  - intros [E | []]. injection E as <- <-. right. right. auto.
  - rewrite Forall_forall in Hall. unfold key_lt in Hall. cbn [fst] in Hall.
    destruct (cell_compare k k1) eqn:E.
    + intros [E' | Hin].
      * injection E' as <- <-. right. left. split.
        { unfold cell_eqb. now rewrite E. }
        exists s1. split; [now left | reflexivity].
      * left. split; [| now right].
        apply cell_eqb_lt. rewrite (cell_compare_eq_l k k1 k' E).
        apply (Hall _ Hin).
    + assert (Hbelow : forall kv, In kv ((k1, s1) :: acc) ->
                                  cell_compare k (fst kv) = Lt).
      { intros kv [<- | Hkv]; [exact E |].
        apply cell_compare_lt_trans with k1; [exact E | now apply Hall]. }
      intros [E' | Hin].
      * injection E' as <- <-. right. right.
        repeat split. now apply below_all_not_member.
      * left. split; [| exact Hin]. apply cell_eqb_lt.
        apply (Hbelow _ Hin).
    + assert (Hk1 : cell_eqb k k1 = false) by (unfold cell_eqb; now rewrite E).
      intros [E' | Hin].
      * injection E' as <- <-. left. split; [exact Hk1 | now left].
      * destruct (IH Hin) as [[H1 H2] | [[H1 [s [H2 H3]]] | [H1 [H2 H3]]]].
        { left. split; [assumption | now right]. }
        { right. left. split; [assumption |]. exists s. split; [now right | assumption]. }
        { right. right. repeat split; try assumption.
          cbn [map existsb fst]. now rewrite Hk1. }
Qed.

Lemma group_fold_totals (todo done acc : list (cell * num)) :
  StronglySorted key_lt acc ->
  (forall kv, In kv acc ->
     isna (fst kv) = false /\ snd kv = pair_total done (fst kv)) ->
  (forall p, In p done -> isna (fst p) = false ->
     existsb (cell_eqb (fst p)) (map fst acc) = true) ->
  forall kv, In kv (fold_left group_step todo acc) ->
    snd kv = pair_total (done ++ todo) (fst kv).
Proof.
  revert done acc. induction todo as [| [k v] todo IH]; intros done acc Hs Hacc Hdone.
  - rewrite app_nil_r. intros kv Hkv. now apply Hacc.
  - cbn [fold_left].
    replace (done ++ (k, v) :: todo) with ((done ++ [(k, v)]) ++ todo)
      by (rewrite <- app_assoc; reflexivity).
    unfold group_step at 2. cbn [fst snd].
    destruct (isna k) eqn:Ek.
    + apply IH; [assumption | |].
      * intros kv Hkv. destruct (Hacc kv Hkv) as [Hna Hsum].
        split; [assumption |]. rewrite pair_total_snoc. cbn [fst snd].
        now rewrite (cell_eqb_missing k (fst kv) Ek Hna).
      * intros p Hp Hna. apply in_app_or in Hp.
        destruct Hp as [Hp | [<- | []]]; [now apply Hdone |].
        cbn [fst] in Hna. congruence.
    + apply IH; [now apply upsert_sorted | |].
      * intros [k' s'] Hkv. cbn [fst snd].
        rewrite pair_total_snoc. cbn [fst snd].
        destruct (upsert_entries k v acc k' s' Hs Hkv)
          as [[H1 H2] | [[H1 [s [H2 H3]]] | [H1 [H2 H3]]]].
        { rewrite H1. apply (Hacc _ H2). }
        { rewrite H1. destruct (Hacc _ H2) as [Hna Hsum]. cbn [fst snd] in *.
          split; [assumption |]. now rewrite H3, Hsum. }
        { subst k' s'. rewrite cell_eqb_refl. split; [assumption |].
          f_equal. unfold pair_total.
          rewrite filter_none; [reflexivity |]. intros p Hp.
          destruct (cell_eqb (fst p) k) eqn:Epk; [| reflexivity]. exfalso.
          destruct (isna (fst p)) eqn:Ep.
          - rewrite (cell_eqb_missing (fst p) k Ep Ek) in Epk. discriminate.
          - assert (Hex := Hdone p Hp Ep).
            apply existsb_exists in Hex. destruct Hex as [k2 [Hin2 E2]].
            rewrite (cell_eqb_l (fst p) k k2 Epk) in E2.
            assert (existsb (cell_eqb k) (map fst acc) = true)
              by (apply existsb_exists; eauto).
            congruence. }
      * intros p Hp Hna. apply in_app_or in Hp. destruct Hp as [Hp | [<- | []]].
        { apply upsert_keeps. now apply Hdone. }
        { cbn [fst]. apply upsert_has. }
Qed.

Lemma pair_total_rows (t : DataFrame) (col : string) (k : cell) :
  pair_total (combine (column t col) (map (fun r => num_at r "Sales Volume") (rows t))) k =
  total_for t col k.
Proof.
  unfold pair_total, total_for, column. rewrite combine_map.
  rewrite filter_map_swap, map_map. reflexivity.
Qed.

Lemma has_column_rows_empty (t : DataFrame) (c : string) :
  has_column t c = true -> empty t = true -> rows t = [].
Proof.
  unfold has_column, empty. destruct (columns t); [discriminate |].
  destruct (rows t); [reflexivity | discriminate].
Qed.

(** The rows of the table [g] returns, read against its input. *)
Lemma g_rows_facts (t : DataFrame) (col : string) (a : DataFrame) :
  col <> "Sales Volume" ->
  has_column t col = true ->
  g t col = Ok a ->
  (forall r, In r (rows a) ->
     cell_at r "Sales Volume" = CNum (total_for t col (cell_at r col)) /\
     isna (cell_at r col) = false /\
     exists r0, In r0 (rows t) /\ cell_at r0 col = cell_at r col) /\
  (forall r0, In r0 (rows t) -> isna (cell_at r0 col) = false ->
     exists r, In r (rows a) /\
               cell_eqb (cell_at r0 col) (cell_at r col) = true) /\
  length (rows a) = nunique (column t col).
Proof.
  intros Hcol Hc H. apply g_inv in H.
  destruct H as [[-> [Hf | He]] | [_ [_ [_ [xs [Hxs ->]]]]]].
  - congruence.
  - assert (Hr := has_column_rows_empty t col Hc He).
    unfold column. rewrite Hr. split; [intros r [] |]. split; [intros r [] | reflexivity].
  - destruct (mapM_num_inv t "Sales Volume" xs Hxs) as [-> _].
    set (groups := group_sums (column t col)
                     (map (fun r => num_at r "Sales Volume") (rows t))).
    split; [| split].
    + intros r Hr. apply sorted_groups_rows in Hr. destruct Hr as [kv [Hkv ->]].
      rewrite key_group_row by assumption.
      rewrite (proj1 (sales_group_row col kv)).
      destruct (group_sums_keys _ _ kv Hkv) as [Hin Hna].
      split; [| split; [assumption |]].
      * f_equal. rewrite <- pair_total_rows.
        apply (group_fold_totals _ [] []); try assumption.
        { constructor. }
        { intros ? []. }
        { intros ? []. }
      * unfold column in Hin. apply in_map_iff in Hin.
        destruct Hin as [r0 [E Hr0]]. now exists r0.
    + intros r0 Hr0 Hna.
      assert (Hk : existsb (cell_eqb (cell_at r0 col)) (map fst groups) = true).
      { apply group_fold_complete. right. split; [| assumption].
        unfold column. rewrite combine_map, map_map. cbn [fst].
        apply in_map_iff. now exists r0. }
      apply existsb_exists in Hk. destruct Hk as [k [Hk Ek]].
      apply in_map_iff in Hk. destruct Hk as [kv [<- Hkv]].
      exists (group_row col kv). split.
      * apply sorted_groups_rows. now exists kv.
      * now rewrite key_group_row.
    + rewrite sorted_groups_length. apply group_sums_count.
Qed.

(** X2: the table [g] returns is empty exactly when no row of its input has
    a key: the input has no rows, or every key cell is missing. *)
Theorem g_empty_iff_no_key (t : DataFrame) (col : string) (a : DataFrame) :
  col <> "Sales Volume" ->
  has_column t col = true ->
  g t col = Ok a ->
  (empty a = true <-> forall r, In r (rows t) -> isna (cell_at r col) = true).
Proof.
  intros Hcol Hc H.
  destruct (g_rows_facts t col a Hcol Hc H) as [Hsound [Hcomplete _]].
  assert (Hrows : empty a = true <-> rows a = []).
  { apply g_inv in H. destruct H as [[-> _] | [_ [_ [_ [xs [_ ->]]]]]].
    - split; reflexivity.
    - unfold empty, sorted_groups, group_table. cbn [columns rows].
      destruct (String.eqb col "Sales Volume");
        destruct (map snd _); split; congruence. }
  rewrite Hrows. split.
  - intros Ha r Hr. destruct (isna (cell_at r col)) eqn:E; [reflexivity |].
    destruct (Hcomplete r Hr E) as [r' [Hr' _]]. rewrite Ha in Hr'. destruct Hr'.
  - intros Hall. destruct (rows a) as [| r rs] eqn:Ea; [reflexivity |].
    destruct (Hsound r (or_introl eq_refl)) as [_ [Hna [r0 [Hr0 E]]]].
    rewrite <- E in Hna. rewrite (Hall r0 Hr0) in Hna. discriminate.
Qed.

Lemma g_empty_iff_no_key_witness :
  empty sample_name_totals = true <->
  forall r, In r (rows sample_sales_clean) -> isna (cell_at r "name") = true.
Proof.
  apply (g_empty_iff_no_key sample_sales_clean "name" sample_name_totals).
  - discriminate.
  - reflexivity.
  - vm_compute. reflexivity.
Defined.

(** ** The ten largest *)

Lemma strongly_sorted_split {A : Type} (R : A -> A -> Prop) (l1 l2 : list A) :
  StronglySorted R (l1 ++ l2) ->
  forall x y, In x l1 -> In y l2 -> R x y.
Proof.
  induction l1 as [| a l1 IH]; intros Hs x y Hx Hy; [destruct Hx |].
  cbn [app] in Hs. inversion Hs as [| ? ? Hs' Hall]; subst.
  destruct Hx as [<- | Hx].
  - rewrite Forall_forall in Hall. apply Hall. apply in_or_app. now right.
  - now apply IH.
Qed.

(** X4: the table bound to [top10] holds the ten largest name totals.  It
    is the first ten rows of the sorted table of name groups, it has ten
    rows or one per distinct name when there are fewer, and no group left
    out has a larger total than a group kept. *)
Theorem top10_are_the_largest
  (parse_float : string -> option num) (csv : option DataFrame) :
  exists m full,
    startup parse_float csv = Ok m /\
    (gt <- groupby_sum (df_clean m) "name" ;;
     sort_values_desc gt "Sales Volume") = Ok full /\
    rows (top10 m) = firstn 10 (rows full) /\
    length (rows (top10 m)) =
      Nat.min 10 (nunique (column (df_clean m) "name")) /\
    (forall r r', In r (rows (top10 m)) -> In r' (skipn 10 (rows full)) ->
       leb (sales r') (sales r) = true).
Proof.
  destruct (startup_ok parse_float csv)
    as [e [bp [pr [bs [bm [bo [He [_ [_ [_ [_ [_ [_ [_ Hm]]]]]]]]]]]]]].
  cbv zeta in Hm.
  set (c := clean_of (normalized_of parse_float e)) in *.
  assert (Hpos : positive_sales c) by now apply clean_normalized_positive_sales.
  assert (Hname : has_column c "name" = true)
    by (apply clean_normalized_has_column; [assumption | simpl; tauto]).
  destruct (positive_sales_nums c Hpos) as [Hxs Hall].
  set (groups := group_sums (column c "name") (map sales (rows c))) in *.
  eexists _, (sorted_groups "name" groups). split; [exact Hm |].
  cbn [df_clean top10]. split.
  { unfold groupby_sum. rewrite (getitem_column c "name" Hname).
    rewrite (getitem_column c "Sales Volume" (proj1 Hpos)). cbn [bind].
    rewrite Hxs. cbn [bind]. apply sort_group_table. }
  split; [reflexivity |]. split.
  { unfold head. cbn [rows]. rewrite length_firstn, sorted_groups_length.
    unfold groups. now rewrite group_sums_count. }
  intros r r' Hr Hr'. unfold head in Hr. cbn [rows] in Hr.
  assert (Hs : sorted_desc (sorted_groups "name" groups))
    by (apply sorted_groups_desc; now apply group_sums_pos).
  unfold sorted_desc in Hs.
  rewrite <- (firstn_skipn 10 (rows (sorted_groups "name" groups))) in Hs.
  exact (strongly_sorted_split _ _ _ Hs r r' Hr Hr').
Qed.

(** ** KPIs of any input *)

Lemma mul_pos (x y : num) :
  ltb zero x = true -> ltb zero y = true -> ltb zero (mul x y) = true.
Proof.
  destruct x as [| | a |], y as [| | b |]; simpl; try congruence.
  - rewrite !Qltb_true. apply Qmult_lt_0_compat.
  - rewrite Qltb_true. intros Ha _. unfold Num.scale_inf.
    apply Qgt_alt in Ha. now rewrite Ha.
  - rewrite Qltb_true. intros _ Hb. unfold Num.scale_inf.
    apply Qgt_alt in Hb. now rewrite Hb.
Qed.

Lemma divn_pos (x : num) (n : nat) :
  ltb zero x = true -> ltb zero (divn x (S n)) = true.
Proof.
  destruct x as [| | a |]; simpl; try congruence.
  rewrite !Qltb_true. intros Ha. unfold Qdiv.
  apply Qmult_lt_0_compat; [assumption |].
  apply Qinv_lt_0_compat. replace 0%Q with (inject_Z 0) by reflexivity.
  rewrite <- Zlt_Qlt. lia.
Qed.

Lemma fold_add_pos (l : list num) (s : num) :
  Forall (fun v => ltb zero v = true) l ->
  ltb zero s = true -> ltb zero (fold_left add l s) = true.
Proof.
  revert s. induction l as [| v l IH]; intros s Hl Hs; [assumption |].
  inversion Hl; subst. cbn [fold_left]. apply IH; [assumption |].
  now apply add_pos.
Qed.

Lemma filter_notnan_pos (l : list num) :
  Forall (fun v => ltb zero v = true) l -> filter notnan l = l.
Proof.
  induction 1 as [| v l Hv Hl IH]; [reflexivity |].
  cbn [filter]. unfold notnan at 1. rewrite (pos_notnan v Hv). cbn [negb].
  now rewrite IH.
Qed.

(** Sum and mean of a non-empty list of positive numbers are positive. *)
Lemma sum_mean_pos (v : num) (l : list num) :
  Forall (fun x => ltb zero x = true) (v :: l) ->
  ltb zero (fold_left add (filter notnan (v :: l)) zero) = true /\
  ltb zero (divn (fold_left add (filter notnan (v :: l)) zero)
                 (length (filter notnan (v :: l)))) = true.
Proof.
  intros H. rewrite (filter_notnan_pos _ H). inversion H; subst.
  assert (Hs : ltb zero (fold_left add (v :: l) zero) = true).
  { cbn [fold_left]. apply fold_add_pos; [assumption | now apply add_zero_pos]. }
  split; [exact Hs |]. cbn [length]. now apply divn_pos.
Qed.

(** X5: the KPIs of any input.  Importing the module binds them without
    raising; total revenue and total units are never NaN; the average price
    is NaN exactly when there is no clean record, and with at least one
    clean record it is positive. *)
Theorem kpis_of_any_input
  (parse_float : string -> option num) (csv : option DataFrame) :
  exists m,
    startup parse_float csv = Ok m /\
    isnan (total_revenue m) = false /\
    isnan (total_units m) = false /\
    (avg_price m = NaN <-> rows (df_clean m) = []) /\
    (rows (df_clean m) = [] \/ ltb zero (avg_price m) = true).
Proof.
  destruct (startup_ok parse_float csv)
    as [e [bp [pr [bs [bm [bo [He [_ [_ [_ [_ [_ [_ [_ Hm]]]]]]]]]]]]]].
  cbv zeta in Hm.
  set (d := normalized_of parse_float e) in *.
  set (c := clean_of d) in *.
  eexists. split; [exact Hm |].
  cbn [total_revenue total_units avg_price df_clean].
  assert (Hcells : forall r, In r (rows c) ->
            ltb zero (num_at r "Revenue") = true /\
            ltb zero (num_at r "Sales Volume") = true /\
            ltb zero (num_at r "price") = true).
  { intros r Hr.
    destruct (clean_row_cells d r (normalized_numeric_row parse_float e) Hr)
      as [r0 [x [y [_ [_ [_ [Ex [Hx [Ey [Hy Erev]]]]]]]]]].
    unfold num_at. rewrite Ex, Ey, Erev. repeat split; try assumption.
    now apply mul_pos. }
  assert (Hall : forall k,
            (forall r, In r (rows c) -> ltb zero (num_at r k) = true) ->
            Forall (fun x => ltb zero x = true) (map (fun r => num_at r k) (rows c))).
  { intros k H. apply Forall_forall. intros x Hx. apply in_map_iff in Hx.
    destruct Hx as [r [<- Hr]]. now apply H. }
  assert (Hrev := Hall "Revenue" (fun r Hr => proj1 (Hcells r Hr))).
  assert (Hsv := Hall "Sales Volume" (fun r Hr => proj1 (proj2 (Hcells r Hr)))).
  assert (Hp := Hall "price" (fun r Hr => proj2 (proj2 (Hcells r Hr)))).
  unfold column_sum, column_mean. cbv zeta.
  destruct (rows c) as [| r rs] eqn:Ec.
  - cbn. repeat split; auto.
  - cbn [map] in *.
    destruct (sum_mean_pos _ _ Hrev) as [Hr1 _].
    destruct (sum_mean_pos _ _ Hsv) as [Hs1 _].
    destruct (sum_mean_pos _ _ Hp) as [_ Hp2].
    split; [now apply pos_notnan |]. split; [now apply pos_notnan |].
    split.
    + split; [| discriminate]. intros E. rewrite E in Hp2. discriminate.
    + right. auto.
Qed.

(** ** What the normalizer builds *)

Lemma expected_cols_nodup : NoDup expected_cols.
Proof.
  unfold expected_cols.
  repeat (constructor; [cbn [In]; intuition discriminate |]). constructor.
Qed.

Lemma has_column_app (d : DataFrame) (cs : list string) (rs : list Row) (c : string) :
  has_column (mkDataFrame (columns d ++ cs) rs) c =
  has_column d c || existsb (String.eqb c) cs.
Proof. unfold has_column. cbn [columns]. apply existsb_app. Qed.

Lemma ensure_step_shape (d : DataFrame) (x : string) :
  ensure_step d x =
  if has_column d x then d
  else mkDataFrame (columns d ++ [x])
         (map (fun r => row_set r x (CStr "")) (rows d)).
Proof.
  unfold ensure_step, setitem_scalar, setitem.
  destruct (has_column d x); [reflexivity |]. now rewrite zip_set_repeat.
Qed.

Lemma ensure_fold_shape (l : list string) (d : DataFrame) :
  NoDup l ->
  let ms := filter (fun c => negb (has_column d c)) l in
  fold_left ensure_step l d =
  mkDataFrame (columns d ++ ms) (map (fill_row ms) (rows d)).
Proof.
  revert d. induction l as [| x l IH]; intros d Hnd; cbv zeta.
  - cbn [fold_left filter]. rewrite app_nil_r. unfold fill_row. cbn [fold_left].
    rewrite map_id. now destruct d.
  - inversion Hnd as [| ? ? Hx Hl]; subst. cbn [fold_left filter].
    rewrite (IH _ Hl). cbv zeta. rewrite ensure_step_shape.
    destruct (has_column d x) eqn:E; cbn [negb]; [reflexivity |].
    cbn [columns rows].
    assert (Hf : filter (fun c => negb (has_column
                   (mkDataFrame (columns d ++ [x])
                      (map (fun r => row_set r x (CStr "")) (rows d))) c)) l =
                 filter (fun c => negb (has_column d c)) l).
    { apply filter_ext_in. intros c Hc. rewrite has_column_app.
      cbn [existsb]. destruct (String.eqb c x) eqn:Ecx.
      - apply String.eqb_eq in Ecx. subst c. contradiction.
      - now rewrite !orb_false_r. }
    rewrite Hf, <- app_assoc, map_map. reflexivity.
Qed.

Lemma cell_at_fill_row (ms : list string) (r : Row) (c : string) :
  cell_at (fill_row ms r) c =
  if existsb (String.eqb c) ms then CStr "" else cell_at r c.
Proof.
  revert r. induction ms as [| x ms IH]; intros r; [reflexivity |].
  unfold fill_row. cbn [fold_left existsb]. fold (fill_row ms (row_set r x (CStr ""))).
  rewrite IH. destruct (existsb (String.eqb c) ms); [now rewrite orb_true_r |].
  rewrite orb_false_r. destruct (String.eqb c x) eqn:E.
  - apply String.eqb_eq in E. subst c. apply cell_at_row_set_same.
  - apply cell_at_row_set_other. intros ->. now rewrite String.eqb_refl in E.
Qed.

Section NormalizerShape.

Variable parse_float : string -> option num.

(** The normalizer in closed form: the lacking expected columns are added
    after the columns of the input, and each record is filled and coerced. *)
Lemma normalize_closed_form (raw : DataFrame) :
  normalize parse_float raw =
  Ok (mkDataFrame (columns raw ++ missing_cols raw)
        (map (fun r => coerce_row parse_float "price"
                         (coerce_row parse_float "Sales Volume"
                            (fill_row (missing_cols raw) r)))
             (rows raw))).
Proof.
  rewrite normalize_ok. unfold ensure_columns.
  rewrite (ensure_fold_shape expected_cols raw expected_cols_nodup).
  cbv zeta. fold (missing_cols raw). cbn [columns rows].
  now rewrite map_map.
Qed.

Lemma cell_at_normalized_row (ms : list string) (r : Row) (c : string) :
  cell_at (coerce_row parse_float "price"
             (coerce_row parse_float "Sales Volume" (fill_row ms r))) c =
  let v := if existsb (String.eqb c) ms then CStr "" else cell_at r c in
  if String.eqb c "Sales Volume" || String.eqb c "price"
  then coerce_cell parse_float v else v.
Proof.
  cbv zeta. rewrite <- cell_at_fill_row.
  destruct (String.eqb c "price") eqn:Ep.
  - apply String.eqb_eq in Ep. subst c. cbn [String.eqb orb].
    rewrite cell_at_coerce_row_same.
    now rewrite cell_at_coerce_row_other by discriminate.
  - rewrite orb_false_r.
    rewrite cell_at_coerce_row_other
      by (intros E; subst c; now rewrite String.eqb_refl in Ep).
    destruct (String.eqb c "Sales Volume") eqn:Es.
    + apply String.eqb_eq in Es. subst c. apply cell_at_coerce_row_same.
    + apply cell_at_coerce_row_other.
      intros E; subst c; now rewrite String.eqb_refl in Es.
Qed.

End NormalizerShape.

(** X6: the normalizer keeps the columns of its input in their order and
    adds, after them, the expected columns the input lacks, in the order of
    the expected-column list; it neither adds nor drops a row. *)
Theorem normalize_schema (parse_float : string -> option num) (raw : DataFrame) :
  exists d,
    normalize parse_float raw = Ok d /\
    columns d = columns raw ++ missing_cols raw /\
    length (rows d) = length (rows raw) /\
    (forall c, has_column d c = true <->
               has_column raw c = true \/ In c expected_cols).
Proof.
  eexists. split; [apply normalize_closed_form |]. cbn [columns rows].
  split; [reflexivity |]. split; [apply length_map |].
  intros c. rewrite has_column_app. unfold missing_cols.
  rewrite orb_true_iff, existsb_exists. split.
  - intros [H | [x [Hx E]]]; [now left |]. apply String.eqb_eq in E. subst x.
    apply filter_In in Hx. right. apply Hx.
  - intros [H | H]; [now left |].
    destruct (has_column raw c) eqn:E; [now left |]. right.
    exists c. split; [| apply String.eqb_refl].
    apply filter_In. split; [assumption |]. now rewrite E.
Qed.

(** X7: what the normalizer does to each cell.  Record by record, a cell of
    an expected column the input lacks is the empty string and every other
    cell is the input's; on top of that the cells of Sales Volume and price
    are coerced to numbers, and no other cell is touched. *)
Theorem normalize_cells (parse_float : string -> option num) (raw : DataFrame) :
  exists d f,
    normalize parse_float raw = Ok d /\
    rows d = map f (rows raw) /\
    forall r c,
      cell_at (f r) c =
      let v := if existsb (String.eqb c) (missing_cols raw)
               then CStr "" else cell_at r c in
      if String.eqb c "Sales Volume" || String.eqb c "price"
      then coerce_cell parse_float v else v.
Proof.
  eexists _, _. split; [apply normalize_closed_form |]. cbn [rows].
  split; [reflexivity |]. intros r c. apply cell_at_normalized_row.
Qed.
(** ** A file without a numeric column *)

Lemma empty_of_no_rows (t : DataFrame) : rows t = [] -> empty t = true.
Proof. unfold empty. intros ->. now destruct (columns t). Qed.

Lemma g_of_no_rows (t : DataFrame) (col : string) (a : DataFrame) :
  rows t = [] -> g t col = Ok a -> a = DataFrame_new.
Proof.
  intros Hr. unfold g. rewrite (empty_of_no_rows t Hr), orb_true_r.
  now intros H; injection H as <-.
Qed.

Lemma missing_col_member (d : DataFrame) (c : string) :
  In c expected_cols -> has_column d c = false ->
  existsb (String.eqb c) (missing_cols d) = true.
Proof.
  intros Hc Hf. apply existsb_exists. exists c. split; [| apply String.eqb_refl].
  apply filter_In. split; [assumption | now rewrite Hf].
Qed.

(** X8: a file that lacks the Sales Volume column or the price column
    yields a dashboard with nothing in it.  The added column is the empty
    string, which is no number, so it is coerced to 0 in every row; no row
    passes the filter, three KPIs are 0, the average price is NaN, the five
    tables of [g] are the empty table and [top10] has no rows. *)
Theorem missing_numeric_column_empties
  (parse_float : string -> option num) (csv : option DataFrame) :
  parse_float "" = None ->
  has_column (load csv) "Sales Volume" = false \/
  has_column (load csv) "price" = false ->
  exists m,
    startup parse_float csv = Ok m /\
    rows (df_clean m) = [] /\
    total_revenue m = zero /\ total_units m = zero /\
    unique_products m = 0%nat /\ avg_price m = NaN /\
    by_position m = DataFrame_new /\ promo m = DataFrame_new /\
    by_season m = DataFrame_new /\ by_material m = DataFrame_new /\
    by_origin m = DataFrame_new /\ rows (top10 m) = [].
Proof.
  intros Hparse Hmiss.
  destruct (startup_ok parse_float csv)
    as [e [bp [pr [bs [bm [bo [He [Hn [_ [Hbp [Hpr [Hbs [Hbm [Hbo Hm]]]]]]]]]]]]]].
  cbv zeta in *.
  set (d := normalized_of parse_float e) in *.
  set (c := clean_of d) in *.
  assert (Hzero : coerce_cell parse_float (CStr "") = CNum zero)
    by (unfold coerce_cell, fillna_cell; cbn; now rewrite Hparse).
  assert (Hrows : rows c = []).
  { unfold c, clean_of. cbn [rows].
    rewrite filter_none; [reflexivity |]. intros r Hr.
    rewrite normalize_closed_form in Hn.
    apply (f_equal (fun x => match x with Ok t => rows t | Raise _ => [] end)) in Hn.
    cbn [rows] in Hn. rewrite <- Hn in Hr. apply in_map_iff in Hr.
    destruct Hr as [r0 [<- _]]. unfold positive, num_at.
    rewrite !cell_at_normalized_row. cbv zeta.
    change (String.eqb "Sales Volume" "Sales Volume" ||
            String.eqb "Sales Volume" "price") with true.
    change (String.eqb "price" "Sales Volume" ||
            String.eqb "price" "price") with true.
    cbv iota.
    destruct Hmiss as [Hf | Hf].
    - rewrite (missing_col_member (load csv) "Sales Volume")
        by (try assumption; simpl; tauto).
      rewrite Hzero. reflexivity.
    - rewrite (missing_col_member (load csv) "price")
        by (try assumption; simpl; tauto).
      rewrite Hzero. apply andb_false_r. }
  eexists. split; [exact Hm |].
  cbn [df_clean total_revenue total_units unique_products avg_price
       by_position promo by_season by_material by_origin top10].
  destruct (kpis_of_no_rows c Hrows) as [H1 [H2 [H3 H4]]].
  repeat (split; [first [assumption | eapply g_of_no_rows; eassumption] |]).
  unfold head, sorted_groups, column. cbn [rows]. rewrite Hrows. reflexivity.
Qed.

Lemma missing_numeric_column_empties_witness :
  exists m,
    startup parse_digits (Some sample_no_price) = Ok m /\
    rows (df_clean m) = [] /\
    total_revenue m = zero /\ total_units m = zero /\
    unique_products m = 0%nat /\ avg_price m = NaN /\
    by_position m = DataFrame_new /\ promo m = DataFrame_new /\
    by_season m = DataFrame_new /\ by_material m = DataFrame_new /\
    by_origin m = DataFrame_new /\ rows (top10 m) = [].
Proof.
  apply (missing_numeric_column_empties parse_digits (Some sample_no_price)).
  - reflexivity.
  - right. reflexivity.
Defined.

(** ** Filtering twice *)

Lemma row_set_twice (r : Row) (c : string) (v w : cell) :
  row_set (row_set r c v) c w = row_set r c w.
Proof.
  induction r as [| [k x] r IH]; cbn [row_set].
  - now rewrite String.eqb_refl.
  - destruct (String.eqb k c) eqn:E; cbn [row_set]; rewrite E;
      [reflexivity | now rewrite IH].
Qed.

Lemma with_revenue_keeps (r : Row) (c : string) :
  c <> "Revenue" -> num_at (with_revenue r) c = num_at r c.
Proof.
  intros H. unfold num_at, with_revenue.
  now rewrite cell_at_row_set_other by congruence.
Qed.

Lemma with_revenue_twice (r : Row) :
  positive (with_revenue r) = positive r /\
  with_revenue (with_revenue r) = with_revenue r.
Proof.
  split.
  - unfold positive. now rewrite !with_revenue_keeps by discriminate.
  - unfold with_revenue at 1. rewrite !with_revenue_keeps by discriminate.
    unfold with_revenue. apply row_set_twice.
Qed.

Lemma clean_of_twice (d : DataFrame) : clean_of (clean_of d) = clean_of d.
Proof.
  unfold clean_of at 1. rewrite has_column_clean_of_revenue.
  unfold clean_of. cbn [columns rows]. f_equal.
  induction (rows d) as [| r rs IH]; [reflexivity |].
  cbn [filter]. destruct (positive r) eqn:E; [| exact IH].
  cbn [map filter]. rewrite (proj1 (with_revenue_twice r)), E.
  cbn [map]. rewrite (proj2 (with_revenue_twice r)). now rewrite IH.
Qed.

(** X9: the clean records are a fixed point of filter/derive.  Run again on
    the table it built, lines 32-33 keep every row and recompute the same
    revenue: the table comes back unchanged. *)
Theorem filter_derive_fixed_point
  (parse_float : string -> option num) (raw : DataFrame) :
  exists c,
    clean_records parse_float raw = Ok c /\ filter_derive c = Ok c.
Proof.
  destruct (clean_records_ok parse_float raw) as [e [He [_ Hc]]].
  set (d := normalized_of parse_float e) in *.
  exists (clean_of d). split; [exact Hc |].
  assert (Hx : has_expected d) by now apply has_expected_normalized.
  destruct (filter_derive_ok (clean_of d)) as [_ [_ H]].
  - apply has_column_clean_of, Hx. simpl; tauto.
  - apply has_column_clean_of, Hx. simpl; tauto.
  - intros r Hr.
    destruct (clean_row_cells d r (normalized_numeric_row parse_float e) Hr)
      as [r0 [x [y [_ [_ [_ [Ex [_ [Ey _]]]]]]]]].
    split; eauto.
  - now rewrite clean_of_twice in H.
Qed.
(** ** Figures *)

Lemma bar_of_columns (d : DataFrame) (x y title : string) (h : bool) :
  (empty d = false -> has_column d x = true /\ has_column d y = true) ->
  make_bar d x y title = Return (bar_or_blank d x y false title) /\
  make_hbar d x y title = Return (bar_or_blank d x y true title).
Proof.
  intros H. unfold make_bar, make_hbar, bar_or_blank, px_bar.
  destruct (empty d); [split; reflexivity |].
  destruct (H eq_refl) as [-> ->]. split; reflexivity.
Qed.

Lemma columns_of_g (t : DataFrame) (col : string) (a : DataFrame) :
  g t col = Ok a -> empty a = false ->
  has_column a col = true /\ has_column a "Sales Volume" = true.
Proof.
  intros H He. apply g_inv in H.
  destruct H as [[-> _] | [_ [_ [_ [xs [_ ->]]]]]]; [discriminate |].
  assert (Hc : forall c, has_column (sorted_groups col (group_sums (column t col) xs)) c =
                         has_column (group_table col (group_sums (column t col) xs)) c)
    by reflexivity.
  rewrite !Hc. split; apply has_column_group_table.
Qed.

(** X10: building the seven figures never raises.  For every input each bar
    chart is the blank figure when its table is empty and otherwise the bar
    chart of that table on the key and Sales Volume columns, and the scatter
    plot is blank exactly when there is no clean record: no axis the script
    names is ever missing from the table it charts. *)
Theorem figures_are_built
  (parse_float : string -> option num) (csv : option DataFrame) :
  exists m,
    startup parse_float csv = Ok m /\
    figures m =
    Return (mkFigures
      (bar_or_blank (by_season m) "season" "Sales Volume" false "Sales by Season")
      (if empty (df_clean m) then go_Figure
       else scatter_chart (df_clean m) "price" "Sales Volume" "name"
              "Price vs Sales Volume")
      (bar_or_blank (top10 m) "Sales Volume" "name" true
         "Top 10 Products by Sales Volume")
      (bar_or_blank (by_material m) "material" "Sales Volume" false
         "Sales by Material")
      (bar_or_blank (by_position m) "Product Position" "Sales Volume" false
         "Sales by Product Position")
      (bar_or_blank (promo m) "Promotion" "Sales Volume" false
         "Sales: Promotion vs No Promotion")
      (bar_or_blank (by_origin m) "origin" "Sales Volume" false
         "Sales by Region / Origin")).
Proof.
  destruct (startup_ok parse_float csv)
    as [e [bp [pr [bs [bm [bo [He [_ [_ [Hbp [Hpr [Hbs [Hbm [Hbo Hm]]]]]]]]]]]]]].
  cbv zeta in *.
  set (c := clean_of (normalized_of parse_float e)) in *.
  eexists. split; [exact Hm |].
  cbn [by_season df_clean top10 by_material by_position promo by_origin].
  unfold figures.
  cbn [by_season df_clean top10 by_material by_position promo by_origin].
  rewrite (proj1 (bar_of_columns bs "season" "Sales Volume" _ false
                    (columns_of_g c "season" bs Hbs))).
  cbn [and_then].
  assert (Hsc : (if negb (empty c)
                 then px_scatter c "price" "Sales Volume" "name" "Price vs Sales Volume"
                 else Return go_Figure) =
                Return (if empty c then go_Figure
                        else scatter_chart c "price" "Sales Volume" "name"
                               "Price vs Sales Volume")).
  { destruct (empty c); [reflexivity |]. cbn [negb]. unfold px_scatter.
    rewrite !(clean_normalized_has_column parse_float e) by (try assumption; simpl; tauto).
    reflexivity. }
  rewrite Hsc. cbn [and_then].
  match goal with
  | |- context [make_hbar ?t _ _ _] =>
      rewrite (proj2 (bar_of_columns t "Sales Volume" "name"
                        "Top 10 Products by Sales Volume" true
                        (fun _ => conj eq_refl eq_refl)))
  end.
  cbn [and_then].
  rewrite (proj1 (bar_of_columns bm "material" "Sales Volume" _ false
                    (columns_of_g c "material" bm Hbm))).
  cbn [and_then].
  rewrite (proj1 (bar_of_columns bp "Product Position" "Sales Volume" _ false
                    (columns_of_g c "Product Position" bp Hbp))).
  cbn [and_then].
  rewrite (proj1 (bar_of_columns pr "Promotion" "Sales Volume" _ false
                    (columns_of_g c "Promotion" pr Hpr))).
  cbn [and_then].
  rewrite (proj1 (bar_of_columns bo "origin" "Sales Volume" _ false
                    (columns_of_g c "origin" bo Hbo))).
  reflexivity.
Qed.

(** ** Page contents *)

Lemma fold_add_inf_stays (l : list num) :
  Forall (fun v => ltb zero v = true) l -> fold_left add l PInf = PInf.
Proof.
  induction 1 as [| v l Hv Hl IH]; [reflexivity |].
  cbn [fold_left]. destruct v; try discriminate; exact IH.
Qed.

Lemma fold_add_not_below (l : list num) (s : num) :
  Forall (fun v => ltb zero v = true) l ->
  not_below s = true ->
  not_below (fold_left add l s) = true /\
  (In PInf l -> fold_left add l s = PInf).
Proof.
  revert s. induction l as [| v l IH]; intros s Hl Hs.
  - split; [assumption | intros []].
  - inversion Hl as [| ? ? Hv Hl']; subst. cbn [fold_left].
    assert (Hsv : not_below (add s v) = true)
      by (destruct s, v; try discriminate; reflexivity).
    destruct (IH _ Hl' Hsv) as [H1 H2]. split; [assumption |].
    intros [-> | Hin]; [| now apply H2].
    replace (add s PInf) with PInf by (destruct s; try discriminate; reflexivity).
    now apply fold_add_inf_stays.
Qed.

Section StartupUnits.

Variable parse_float : string -> option num.

(** Total units of the clean records: finite or plus infinity, and plus
    infinity as soon as one volume is. *)
Lemma clean_units (e : DataFrame) :
  let c := clean_of (normalized_of parse_float e) in
  not_below (column_sum c "Sales Volume") = true /\
  ((exists r, In r (rows c) /\ sales r = PInf) ->
   column_sum c "Sales Volume" = PInf).
Proof.
  intros c.
  assert (Hall : Forall (fun x => ltb zero x = true)
                   (map (fun r => num_at r "Sales Volume") (rows c))).
  { apply Forall_forall. intros x Hx. apply in_map_iff in Hx.
    destruct Hx as [r [<- Hr]].
    destruct (clean_row_cells _ r (normalized_numeric_row parse_float e) Hr)
      as [r0 [x [y [_ [_ [_ [Ex [Hx _]]]]]]]].
    unfold num_at. now rewrite Ex. }
  unfold column_sum. rewrite (filter_notnan_pos _ Hall).
  destruct (fold_add_not_below _ zero Hall eq_refl) as [H1 H2].
  split; [assumption |]. intros [r [Hr E]]. apply H2.
  apply in_map_iff. exists r. split; assumption.
Qed.

Lemma page_insights_returns (str_num : DataFrame -> num -> string)
  (csv : option DataFrame) (m : Dashboard) :
  startup parse_float csv = Ok m ->
  exists lists, page_insights str_num m = Ok lists.
Proof.
  destruct (startup_ok parse_float csv)
    as [e [bp [pr [bs [bm [bo [He [_ [_ [Hbp [_ [Hbs [_ [Hbo ->]]]]]]]]]]]]]].
  cbv zeta in *. intros H. injection H as <-.
  assert (Hpos := clean_normalized_positive_sales parse_float e He).
  destruct (insight_of_g str_num "M" "ost sales come from the '" "' position."
              _ _ _ Hpos Hbp) as [s1 [i1 [E1 _]]].
  destruct (insight_of_g str_num "T" "op season: " "" _ _ _ Hpos Hbs)
    as [s2 [i2 [E2 _]]].
  destruct (insight_of_g str_num "S" "trongest region: " "" _ _ _ Hpos Hbo)
    as [s3 [i3 [E3 _]]].
  unfold page_insights. cbn [by_position by_season by_origin].
  rewrite E1. cbn [bind]. rewrite E2. cbn [bind]. rewrite E3. cbn [bind].
  eexists. reflexivity.
Qed.

End StartupUnits.

(** X11: the only exception a page can raise is that of
    [int(total_units)] on the overview.  For every input the details,
    advanced and insights pages are returned whatever the path, and the
    overview raises OverflowError as soon as one clean record has an
    infinite Sales Volume.  Whatever the module has bound, the overview
    raises OverflowError when total units are infinite, ValueError when
    they are NaN, and is returned when they are finite. *)
Theorem page_content_errors
  (fmt_money : num -> string) (fmt_thousands : Z -> string)
  (str_nat : nat -> string) (str_num : DataFrame -> num -> string) :
  (forall (parse_float : string -> option num) (csv : option DataFrame),
      exists m,
        startup parse_float csv = Ok m /\
        forall figs path,
          let content :=
            page_content fmt_money fmt_thousands str_nat str_num m figs path in
          (change_page path = overview \/ exists h, content = Return h) /\
          ((exists r, In r (rows (df_clean m)) /\ sales r = PInf) ->
           change_page path = overview -> content = Throw OverflowError)) /\
  (forall (m : Dashboard) (figs : Figures) (path : string),
      change_page path = overview ->
      let content :=
        page_content fmt_money fmt_thousands str_nat str_num m figs path in
      match total_units m with
      | Fin _ => exists h, content = Return h
      | NaN => content = Throw ValueError
      | PInf | NInf => content = Throw OverflowError
      end).
Proof.
  split.
  - intros parse_float csv.
    destruct (startup_ok parse_float csv)
      as [e [bp [pr [bs [bm [bo [He [_ [_ [_ [_ [_ [_ [_ Hm]]]]]]]]]]]]]].
    cbv zeta in Hm.
    destruct (page_insights_returns parse_float str_num csv _ Hm) as [lists Hi].
    destruct (clean_units parse_float e) as [_ Hinf]. cbv zeta in Hinf.
    eexists. split; [exact Hm |].
    intros figs path. cbv zeta.
    unfold page_content, page_insights_html, page_overview.
    rewrite Hi. cbn [of_result and_then total_units df_clean].
    destruct (change_page path).
    + split; [now left |]. intros Hex _. rewrite (Hinf Hex). reflexivity.
    + split; [right; eauto | intros; discriminate].
    + split; [right; eauto | intros; discriminate].
    + split; [right; eauto | intros; discriminate].
  - intros m figs path Hp. cbv zeta. unfold page_content, page_overview.
    rewrite Hp. destruct (total_units m); cbn [int_of_num and_then];
      try reflexivity. eauto.
Qed.

Example overview_of_infinite_volume :
  match startup parse_digits (Some sample_infinite_volume) with
  | Ok m =>
      page_content (fun _ => "") (fun _ => "") (fun _ => "") (fun _ _ => "")
        m (mkFigures go_Figure go_Figure go_Figure go_Figure go_Figure
             go_Figure go_Figure) "/"
  | Raise e => Throw (Pandas e)
  end = Throw OverflowError.
Proof. vm_compute. reflexivity. Qed.
(** ** Sizes *)

Lemma unique_fold_length (s acc : Series) :
  (length (fold_left unique_step s acc) <= length acc + length s)%nat.
Proof.
  revert acc. induction s as [| c s IH]; intros acc; cbn [fold_left length]; [lia |].
  specialize (IH (unique_step acc c)). unfold unique_step in *.
  destruct (existsb (cell_eqb c) acc); [lia |].
  rewrite length_app in IH. cbn [length] in IH. lia.
Qed.

Lemma nunique_le_length (s : Series) : (nunique s <= length s)%nat.
Proof.
  unfold nunique, unique.
  pose proof (unique_fold_length (filter (fun c => negb (isna c)) s) []) as H.
  pose proof (filter_length_le (fun c => negb (isna c)) s) as H'.
  cbn [length] in H. lia.
Qed.

Lemma g_rows_le (t : DataFrame) (col : string) (a : DataFrame) :
  g t col = Ok a -> (length (rows a) <= length (rows t))%nat.
Proof.
  intros H. apply g_inv in H.
  destruct H as [[-> _] | [_ [_ [_ [xs [Hxs ->]]]]]]; [cbn; lia |].
  destruct (mapM_num_inv t "Sales Volume" xs Hxs) as [-> _].
  rewrite sorted_groups_length, group_sums_count.
  pose proof (nunique_le_length (column t col)) as H.
  unfold column in H at 2. now rewrite length_map in H.
Qed.

(** X12: no figure on the dashboard counts more than the clean records.
    For every input the number of unique products, the number of rows of
    each of the five tables of [g] and of [top10] are at most the number of
    clean records, and [top10] has at most ten rows. *)
Theorem counts_are_bounded
  (parse_float : string -> option num) (csv : option DataFrame) :
  exists m,
    startup parse_float csv = Ok m /\
    let n := length (rows (df_clean m)) in
    (unique_products m <= n)%nat /\
    (length (rows (by_position m)) <= n)%nat /\
    (length (rows (promo m)) <= n)%nat /\
    (length (rows (by_season m)) <= n)%nat /\
    (length (rows (by_material m)) <= n)%nat /\
    (length (rows (by_origin m)) <= n)%nat /\
    (length (rows (top10 m)) <= Nat.min 10 n)%nat.
Proof.
  destruct (startup_ok parse_float csv)
    as [e [bp [pr [bs [bm [bo [He [_ [_ [Hbp [Hpr [Hbs [Hbm [Hbo Hm]]]]]]]]]]]]]].
  cbv zeta in *.
  set (c := clean_of (normalized_of parse_float e)) in *.
  eexists. split; [exact Hm |].
  cbn [df_clean unique_products by_position promo by_season by_material
       by_origin top10].
  assert (Hcol : forall k, length (column c k) = length (rows c))
    by (intros k; apply length_map).
  split.
  { rewrite <- (Hcol "Product ID"). apply nunique_le_length. }
  repeat (split; [eapply g_rows_le; eassumption |]).
  unfold head. cbn [rows].
  rewrite length_firstn, sorted_groups_length, group_sums_count.
  pose proof (nunique_le_length (column c "name")) as H.
  rewrite Hcol in H. lia.
Qed.

(** ** Line 56 beside [g] *)

(** X13: [top10] repeats what [g] does for the name column, without the
    guard for an empty table.  For every input its rows are the first ten
    rows of [g(df_clean, "name")]; with at least one clean record it is that
    table cut to ten rows, and with none [g] gives the table without columns
    while [top10] keeps the two columns and no rows. *)
Theorem top10_beside_g
  (parse_float : string -> option num) (csv : option DataFrame) :
  exists m a,
    startup parse_float csv = Ok m /\
    g (df_clean m) "name" = Ok a /\
    rows (top10 m) = firstn 10 (rows a) /\
    (rows (df_clean m) = [] \/ top10 m = head 10 a) /\
    (rows (df_clean m) <> [] \/
     (a = DataFrame_new /\ top10 m = mkDataFrame ["name"; "Sales Volume"] [])).
Proof.
  destruct (startup_ok parse_float csv)
    as [e [bp [pr [bs [bm [bo [He [_ [_ [_ [_ [_ [_ [_ Hm]]]]]]]]]]]]]].
  cbv zeta in Hm.
  set (c := clean_of (normalized_of parse_float e)) in *.
  assert (Hpos : positive_sales c) by now apply clean_normalized_positive_sales.
  assert (Hname : has_column c "name" = true)
    by (apply clean_normalized_has_column; [assumption | simpl; tauto]).
  destruct (positive_sales_nums c Hpos) as [Hxs _].
  set (groups := group_sums (column c "name") (map sales (rows c))) in *.
  assert (Hfull : (gt <- groupby_sum c "name" ;;
                   sort_values_desc gt "Sales Volume") =
                  Ok (sorted_groups "name" groups)).
  { unfold groupby_sum. rewrite (getitem_column c "name" Hname).
    rewrite (getitem_column c "Sales Volume" (proj1 Hpos)). cbn [bind].
    rewrite Hxs. cbn [bind]. apply sort_group_table. }
  destruct (rows c) as [| r rs] eqn:Ec.
  - exists (mkDashboard (normalized_of parse_float e) c
              (column_sum c "Revenue") (column_sum c "Sales Volume")
              (column_mean c "price") (nunique (column c "Product ID"))
              bp pr bs bm bo (head 10 (sorted_groups "name" groups))),
           DataFrame_new.
    split; [exact Hm |]. cbn [df_clean top10].
    split.
    { unfold g. rewrite (empty_of_no_rows c Ec). now rewrite orb_true_r. }
    assert (Hg : groups = []) by (unfold groups, column; now rewrite Ec).
    rewrite Hg. split; [reflexivity |]. split; [now left |].
    right. split; reflexivity.
  - exists (mkDashboard (normalized_of parse_float e) c
              (column_sum c "Revenue") (column_sum c "Sales Volume")
              (column_mean c "price") (nunique (column c "Product ID"))
              bp pr bs bm bo (head 10 (sorted_groups "name" groups))),
           (sorted_groups "name" groups).
    split; [exact Hm |]. cbn [df_clean top10].
    split.
    { unfold g. rewrite Hname. cbn [negb orb].
      assert (He' : empty c = false).
      { unfold empty. rewrite Ec. apply has_column_In in Hname.
        destruct (columns c); [destruct Hname | reflexivity]. }
      rewrite He'. exact Hfull. }
    split; [reflexivity |]. split; [now right |]. left. rewrite Ec. discriminate.
Qed.

(** * Groups, sums and products *)

(** ** Keys *)

Lemma cell_eqb_same_key (a k : cell) :
  isna k = false -> cell_eqb a k = same_key a k.
Proof.
  unfold cell_eqb.
  destruct a as [s | x], k as [t | y]; cbn [cell_compare same_key isna];
    intros Hk; try reflexivity.
  - destruct (String.eqb_spec s t) as [-> | Hne].
    + now rewrite string_compare_refl.
    + destruct (String.compare s t) eqn:E; try reflexivity.
      apply String.compare_eq_iff in E. contradiction.
  - now destruct x.
  - destruct x as [| | p |], y as [| | q |]; try discriminate; try reflexivity.
    cbn [Num.compare]. destruct (Qeq_bool p q) eqn:E.
    + apply Qeq_bool_iff, Qeq_alt in E. now rewrite E.
    + destruct (p ?= q)%Q eqn:C; try reflexivity.
      apply Qeq_alt, Qeq_bool_iff in C. congruence.
Qed.

(** ** Sums of whole numbers *)

Lemma fold_whole_units (rs : list Row) (qa : Q) (za : Z) :
  (forall r, In r rs -> whole (cell_at r "Sales Volume") (units_of r)) ->
  (qa == inject_Z za)%Q ->
  exists q,
    fold_left add_skipna (map sales rs) (Fin qa) = Fin q /\
    (q == inject_Z (za + Z_sum (map units_of rs)))%Q.
Proof.
  revert qa za. induction rs as [| r rs IH]; intros qa za H Hq.
  - exists qa. split; [reflexivity |]. cbn [map Z_sum fold_right].
    now rewrite Z.add_0_r.
  - destruct (H r (or_introl eq_refl)) as [q [Er Hw]].
    destruct (IH (qa + q)%Q (za + units_of r)%Z) as [q' [E Hq']].
    + intros r' Hr'. apply H. now right.
    + rewrite inject_Z_plus, Hq, Hw. reflexivity.
    + exists q'. split.
      * cbn [map fold_left]. unfold sales at 2, num_at. rewrite Er.
        exact E.
      * cbn [map Z_sum fold_right]. fold (Z_sum (map units_of rs)).
        now rewrite Z.add_assoc.
Qed.

Lemma total_for_whole (t : DataFrame) (col : string) (k : cell) :
  whole_volumes t -> isna k = false ->
  whole (CNum (total_for t col k)) (volume_of_key t col k).
Proof.
  intros [Hw _] Hk. unfold total_for, volume_of_key, records_of_key.
  rewrite (filter_ext (fun r => cell_eqb (cell_at r col) k)
             (fun r => same_key (cell_at r col) k))
    by (intros r; now apply cell_eqb_same_key).
  destruct (fold_whole_units
              (filter (fun r => same_key (cell_at r col) k) (rows t)) 0%Q 0%Z)
    as [q [E Hq]].
  - intros r Hr. apply filter_In in Hr. apply Hw, Hr.
  - reflexivity.
  - exists q. split; [unfold zero; now rewrite E | exact Hq].
Qed.

(** ** The rows of a group table *)

Lemma sorted_groups_totals (t : DataFrame) (col : string) (r : Row) :
  col <> "Sales Volume" ->
  In r (rows (sorted_groups col (group_sums (column t col) (map sales (rows t))))) ->
  cell_at r "Sales Volume" = CNum (total_for t col (cell_at r col)) /\
  isna (cell_at r col) = false.
Proof.
  intros Hcol Hr. apply sorted_groups_rows in Hr. destruct Hr as [kv [Hkv ->]].
  rewrite key_group_row by assumption.
  rewrite (proj1 (sales_group_row col kv)).
  destruct (group_sums_keys _ _ kv Hkv) as [_ Hna].
  split; [| assumption].
  f_equal. rewrite <- pair_total_rows.
  apply (group_fold_totals _ [] []); try assumption.
  - constructor.
  - intros ? [].
  - intros ? [].
Qed.

(** What [g] returns, read against its input: a row for every key, no row
    without records, one row per key, and with whole volumes the integer
    sum of the group in each row. *)
Lemma g_groups (t : DataFrame) (col : string) (a : DataFrame) :
  col <> "Sales Volume" ->
  has_column t col = true ->
  g t col = Ok a ->
  (forall r, In r (rows t) -> isna (cell_at r col) = false ->
     exists r', In r' (rows a) /\
                same_key (cell_at r col) (cell_at r' col) = true) /\
  (forall r', In r' (rows a) ->
     isna (cell_at r' col) = false /\
     exists r, In r (rows t) /\ cell_at r col = cell_at r' col) /\
  length (rows a) = nunique (column t col) /\
  (whole_volumes t ->
   forall r', In r' (rows a) ->
     whole (cell_at r' "Sales Volume") (volume_of_key t col (cell_at r' col))).
Proof.
  intros Hcol Hc H.
  destruct (g_rows_facts t col a Hcol Hc H) as [Hsound [Hcomplete Hlen]].
  split; [| split; [| split; [exact Hlen |]]].
  - intros r Hr Hna. destruct (Hcomplete r Hr Hna) as [r' [Hr' E]].
    exists r'. split; [assumption |].
    rewrite <- cell_eqb_same_key; [assumption |].
    exact (proj1 (proj2 (Hsound r' Hr'))).
  - intros r' Hr'. destruct (Hsound r' Hr') as [_ [Hna Hex]]. now split.
  - intros Hw r' Hr'. destruct (Hsound r' Hr') as [E [Hna _]].
    rewrite E. now apply total_for_whole.
Qed.

Lemma sample_whole_volumes : whole_volumes sample_sales_clean.
Proof.
  split; [| vm_compute; reflexivity].
  intros r Hr. cbn in Hr.
  destruct Hr as [<- | [<- | [<- | []]]];
    (split; [eexists; split; [reflexivity | vm_compute; reflexivity]
            | vm_compute; discriminate]).
Qed.

(** C2: [g] returns a table sorted non-increasing by summed Sales Volume,
    and the empty table, without raising, when its input is empty or lacks
    the key column.  Whenever [g] returns, the rows are in descending order
    with NaN sums last; on the clean records of any input it returns for
    every key column and no sum is NaN, so the order is non-increasing.
    The rows are the groups of the input: every key that is not missing has
    a row, every row has a key that a record carries, there is one row per
    distinct key, and while the volumes are whole numbers with a total
    below 2^53 a row's Sales Volume is the integer sum of the units of the
    records of its key. *)
Theorem g_sorted_or_empty :
  (forall t col a, g t col = Ok a -> sorted_nan_last a) /\
  (forall parse_float raw col,
      exists c a, clean_records parse_float raw = Ok c /\
                  g c col = Ok a /\ sorted_desc a) /\
  (forall t col,
      empty t = true \/ has_column t col = false -> g t col = Ok DataFrame_new) /\
  (forall t col a,
      col <> "Sales Volume" -> has_column t col = true -> g t col = Ok a ->
      (forall r, In r (rows t) -> isna (cell_at r col) = false ->
         exists r', In r' (rows a) /\
                    same_key (cell_at r col) (cell_at r' col) = true) /\
      (forall r', In r' (rows a) ->
         isna (cell_at r' col) = false /\
         exists r, In r (rows t) /\ cell_at r col = cell_at r' col) /\
      length (rows a) = nunique (column t col) /\
      (whole_volumes t ->
       forall r', In r' (rows a) ->
         whole (cell_at r' "Sales Volume")
               (volume_of_key t col (cell_at r' col)))).
Proof.
  split; [exact g_sorted_nan_last |]. split; [| split].
  - intros parse_float raw col.
    destruct (clean_records_ok parse_float raw) as [e [He [_ Hc]]].
    destruct (g_positive_sales _ col (clean_normalized_positive_sales parse_float e He))
      as [a [Ha [Hs _]]].
    eauto.
  - intros t col H. unfold g.
    destruct H as [-> | ->]; cbn [negb orb]; [| reflexivity].
    now rewrite orb_true_r.
  - exact g_groups.
Qed.

(** The name groups of the sample: pen with 10 + 4 units, then ink with 3. *)
Lemma g_sorted_or_empty_witness :
  exists a,
    g sample_sales_clean "name" = Ok a /\
    map (fun r => (cell_at r "name", cell_at r "Sales Volume")) (rows a) =
    [(CStr "pen", CNum (Fin 14)); (CStr "ink", CNum (Fin 3))] /\
    map (fun r => volume_of_key sample_sales_clean "name" (cell_at r "name"))
      (rows a) = [14%Z; 3%Z] /\
    forall r', In r' (rows a) ->
      whole (cell_at r' "Sales Volume")
            (volume_of_key sample_sales_clean "name" (cell_at r' "name")).
Proof.
  exists sample_name_totals.
  split; [vm_compute; reflexivity |].
  split; [vm_compute; reflexivity |].
  split; [vm_compute; reflexivity |].
  apply (proj2 (proj2 (proj2 g_sorted_or_empty)) sample_sales_clean "name"
           sample_name_totals).
  - discriminate.
  - reflexivity.
  - vm_compute. reflexivity.
  - exact sample_whole_volumes.
Defined.

(** ** The first row of a group table *)

Lemma same_key_volume (t : DataFrame) (col : string) (k k' : cell) :
  isna k' = false -> same_key k k' = true ->
  volume_of_key t col k = volume_of_key t col k'.
Proof.
  intros Hk' E. rewrite <- cell_eqb_same_key in E by assumption.
  assert (Hk : isna k = false).
  { destruct (isna k) eqn:Ek; [| reflexivity].
    rewrite cell_eqb_sym in E.
    destruct k as [s | x]; [discriminate |]. destruct x; try discriminate.
    destruct k' as [s' | y]; [discriminate |]. now destruct y. }
  unfold volume_of_key, records_of_key. do 2 f_equal. apply filter_ext.
  intros r. rewrite <- !cell_eqb_same_key by assumption. now apply cell_eqb_r.
Qed.

Lemma whole_leb (x y : num) (a b : Z) :
  whole (CNum x) a -> whole (CNum y) b -> leb x y = true -> (a <= b)%Z.
Proof.
  intros [p [Ex Hp]] [q [Ey Hq]]. injection Ex as ->. injection Ey as ->.
  cbn [leb]. rewrite negb_true_iff, Qltb_false, Hp, Hq. now rewrite <- Zle_Qle.
Qed.

(** X3: the group an insight sentence is about sold the most.  While the
    volumes are whole numbers with a total below 2^53, the first row of the
    table [g] returns carries a key under which at least as many units were
    sold as under any other key of the input. *)
Theorem first_row_sells_most
  (t : DataFrame) (col : string) (a : DataFrame) (r : Row) (rest : list Row) :
  col <> "Sales Volume" ->
  has_column t col = true ->
  whole_volumes t ->
  g t col = Ok a ->
  rows a = r :: rest ->
  isna (cell_at r col) = false /\
  (exists r0, In r0 (rows t) /\ cell_at r0 col = cell_at r col) /\
  whole (cell_at r "Sales Volume") (volume_of_key t col (cell_at r col)) /\
  forall r0, In r0 (rows t) -> isna (cell_at r0 col) = false ->
    (volume_of_key t col (cell_at r0 col) <=
     volume_of_key t col (cell_at r col))%Z.
Proof.
  intros Hcol Hc Hw H Er.
  destruct (g_groups t col a Hcol Hc H) as [Hcomplete [Hsound [_ Hsum]]].
  specialize (Hsum Hw).
  assert (Hr : In r (rows a)) by (rewrite Er; now left).
  destruct (Hsound r Hr) as [Hna Hex].
  split; [assumption |]. split; [assumption |]. split; [now apply Hsum |].
  intros r0 Hr0 Hna0.
  destruct (Hcomplete r0 Hr0 Hna0) as [r' [Hr' E]].
  rewrite (same_key_volume t col _ _ (proj1 (Hsound r' Hr')) E).
  assert (Hdesc : sorted_desc a).
  { apply sorted_nan_last_desc; [| now apply (g_sorted_nan_last t col)].
    intros r1 Hr1. destruct (Hsum r1 Hr1) as [q [Eq _]].
    unfold sales, num_at. now rewrite Eq. }
  assert (Hle : leb (sales r') (sales r) = true).
  { unfold sorted_desc in Hdesc. rewrite Er in Hdesc, Hr'.
    inversion Hdesc as [| ? ? _ Hall]; subst.
    destruct Hr' as [<- | Hr'].
    - apply leb_refl. destruct (Hsum r Hr) as [q [Eq _]].
      unfold sales, num_at. now rewrite Eq.
    - rewrite Forall_forall in Hall. now apply Hall. }
  destruct (Hsum r Hr) as [q [Eq Hq]]. destruct (Hsum r' Hr') as [q' [Eq' Hq']].
  unfold sales, num_at in Hle. rewrite Eq, Eq' in Hle.
  apply (whole_leb (Fin q') (Fin q)); [now exists q' | now exists q | assumption].
Qed.

(** In the sample the first row is pen, with 14 units against 3 for ink. *)
Lemma first_row_sells_most_witness :
  exists r rest,
    rows sample_name_totals = r :: rest /\
    cell_at r "name" = CStr "pen" /\
    volume_of_key sample_sales_clean "name" (cell_at r "name") = 14%Z /\
    forall r0, In r0 (rows sample_sales_clean) ->
      isna (cell_at r0 "name") = false ->
      (volume_of_key sample_sales_clean "name" (cell_at r0 "name") <=
       volume_of_key sample_sales_clean "name" (cell_at r "name"))%Z.
Proof.
  eexists _, _. split; [vm_compute; reflexivity |].
  split; [vm_compute; reflexivity |]. split; [vm_compute; reflexivity |].
  refine (proj2 (proj2 (proj2
            (first_row_sells_most sample_sales_clean "name" sample_name_totals
               _ _ _ _ sample_whole_volumes _ _)))).
  - discriminate.
  - reflexivity.
  - vm_compute. reflexivity.
  - reflexivity.
Defined.

(** ** Revenue *)




(** ** The whole top-n table *)

(** C7: with [n] greater than the number of distinct names, the top-n table
    is the whole table of name groups: it is returned without an error, is
    not cut, has one row per distinct name that is not missing (no row more),
    and is sorted non-increasing by summed Sales Volume; while the volumes
    are whole numbers with a total below 2^53, the Sales Volume of a row is
    the integer sum of the units of the records of its name. *)
Theorem topN_returns_all_groups
  (parse_float : string -> option num) (raw c : DataFrame) (n : nat) :
  clean_records parse_float raw = Ok c ->
  (nunique (column c "name") < n)%nat ->
  exists t,
    topN c n = Ok t /\
    (gt <- groupby_sum c "name" ;; sort_values_desc gt "Sales Volume") = Ok t /\
    length (rows t) = nunique (column c "name") /\
    sorted_desc t /\
    (forall r, In r (rows c) -> isna (cell_at r "name") = false ->
       existsb (cell_eqb (cell_at r "name")) (column t "name") = true) /\
    (forall r', In r' (rows t) ->
       exists r, In r (rows c) /\ cell_at r' "name" = cell_at r "name") /\
    (whole_volumes c ->
     forall r', In r' (rows t) ->
       whole (cell_at r' "Sales Volume")
             (volume_of_key c "name" (cell_at r' "name"))).
Proof.
  intros Hc Hn.
  destruct (clean_records_ok parse_float raw) as [e [He [_ Hc']]].
  rewrite Hc in Hc'. injection Hc' as ->.
  set (c := clean_of (normalized_of parse_float e)) in *.
  assert (Hpos : positive_sales c) by now apply clean_normalized_positive_sales.
  assert (Hname : has_column c "name" = true)
    by (apply clean_normalized_has_column; [assumption | simpl; tauto]).
  destruct (positive_sales_nums c Hpos) as [Hxs Hall].
  set (groups := group_sums (column c "name") (map sales (rows c))).
  assert (Hlen : length (rows (sorted_groups "name" groups)) =
                 nunique (column c "name")).
  { rewrite sorted_groups_length. apply group_sums_count. }
  exists (sorted_groups "name" groups). split.
  { rewrite topN_positive_sales by assumption. fold groups.
    rewrite head_all; [reflexivity | lia]. }
  split.
  { unfold groupby_sum. rewrite (getitem_column c "name" Hname).
    rewrite (getitem_column c "Sales Volume" (proj1 Hpos)). cbn [bind].
    rewrite Hxs. cbn [bind]. apply sort_group_table. }
  split; [exact Hlen |].
  split; [apply sorted_groups_desc; now apply group_sums_pos |].
  split; [| split].
  - intros r Hr Hna.
    assert (Hk : existsb (cell_eqb (cell_at r "name")) (map fst groups) = true).
    { apply group_fold_complete. right. split; [| assumption].
      unfold column. rewrite combine_map, map_map. cbn [fst].
      apply in_map_iff. now exists r. }
    apply existsb_exists in Hk. destruct Hk as [k [Hk Ek]].
    apply in_map_iff in Hk. destruct Hk as [kv [<- Hkv]].
    apply existsb_exists. exists (fst kv). split; [| assumption].
    unfold column. apply in_map_iff. exists (group_row "name" kv). split.
    + apply key_group_row. discriminate.
    + apply sorted_groups_rows. now exists kv.
  - intros r' Hr'. apply sorted_groups_rows in Hr'. destruct Hr' as [kv [Hkv ->]].
    rewrite key_group_row by discriminate.
    destruct (group_sums_keys _ _ kv Hkv) as [Hin _].
    unfold column in Hin. apply in_map_iff in Hin. destruct Hin as [r [<- Hr]].
    now exists r.
  - intros Hw r' Hr'.
    destruct (sorted_groups_totals c "name" r' ltac:(discriminate) Hr')
      as [E Hna].
    rewrite E. now apply total_for_whole.
Qed.

(** The sample has two names; asked for ten, [topN] returns both groups,
    pen with 14 units before ink with 3. *)
Lemma topN_returns_all_groups_witness :
  whole_volumes sample_sales_clean /\
  exists t,
    topN sample_sales_clean 10 = Ok t /\
    (gt <- groupby_sum sample_sales_clean "name" ;;
     sort_values_desc gt "Sales Volume") = Ok t /\
    length (rows t) = nunique (column sample_sales_clean "name") /\
    sorted_desc t /\
    (forall r, In r (rows sample_sales_clean) ->
       isna (cell_at r "name") = false ->
       existsb (cell_eqb (cell_at r "name")) (column t "name") = true) /\
    (forall r', In r' (rows t) ->
       exists r, In r (rows sample_sales_clean) /\
                 cell_at r' "name" = cell_at r "name") /\
    (whole_volumes sample_sales_clean ->
     forall r', In r' (rows t) ->
       whole (cell_at r' "Sales Volume")
             (volume_of_key sample_sales_clean "name" (cell_at r' "name"))).
Proof.
  split; [exact sample_whole_volumes |].
  apply (topN_returns_all_groups parse_digits sample_sales sample_sales_clean 10).
  - vm_compute. reflexivity.
  - vm_compute. lia.
Defined.
